(** * pydroid-ipcam: the request pipeline of [IPWebcam], modelled and verified

    A shallow embedding of [src/pydroid-ipcam.py].  Python values are an
    inductive type, exceptions are an explicit outcome, and the object
    together with the trace of what it did to its collaborators (HTTP
    session, response, logger) is threaded through a small state monad.

    Two things belong to the Python runtime and its libraries rather than to
    the module: floating point ([float], [repr]) and the markup parser
    ([xml.etree.ElementTree]).  They are an interface, [PyRuntime], over
    which the whole development is generic.  Text is ASCII text. *)

From Stdlib Require Import String Ascii ZArith List Bool Lia DecimalString.
Import ListNotations.

Set Warnings "-register-all".

Open Scope string_scope.
Open Scope list_scope.
Open Scope Z_scope.

(** ** Exceptions and outcomes *)

(** The exception classes the module names or can meet.  A constructor
    stands for the class and its subclasses; [aiohttp.errors] is the
    aiohttp 1.x module the source refers to. *)
Inductive exn : Type :=
| TimeoutError              (* asyncio.TimeoutError *)
| ClientError               (* aiohttp.errors.ClientError *)
| ClientDisconnectedError   (* aiohttp.errors.ClientDisconnectedError *)
| ParseError                (* xml.etree.ElementTree.ParseError *)
| TypeError
| AttributeError
| ValueError
| OverflowError
| NameError (name : string)
| OtherError (cls : string).

Inductive outcome (A : Type) : Type :=
| Ret (a : A)
| Raise (e : exn).
Arguments Ret {A} a.
Arguments Raise {A} e.

(** ** What the runtime provides *)

Class PyRuntime : Type := {
  pyfloat : Type;
  (** [float(s)] on a string; [None] is [ValueError]. *)
  float_of_str : string -> option pyfloat;
  (** [float(n)] on an integer; [None] is [OverflowError]. *)
  float_of_int : Z -> option pyfloat;
  (** [str(x)] of a float. *)
  float_repr : pyfloat -> string;
  (** truth value of a float. *)
  float_truthy : pyfloat -> bool;
  element : Type;
  (** [ET.fromstring(text)]; [None] is [ET.ParseError]. *)
  ET_fromstring : string -> option element;
  (** the attributes of an element, which [Element.get], [Element.keys]
      and [Element.items] read. *)
  element_attrib : element -> list (string * string)
}.

(** A small runtime, enough to run the model on examples: floats with an
    integer value written as an optional minus sign and decimal digits, and
    markup made of one empty element [<tag/>]. *)
Module SmallRuntime.

Definition is_digit (c : ascii) : bool :=
  let n := nat_of_ascii c in (48 <=? n)%nat && (n <=? 57)%nat.

Definition digit_val (c : ascii) : Z := Z.of_nat (nat_of_ascii c) - 48.

Fixpoint digits (s : string) (acc : Z) : option Z :=
  match s with
  | EmptyString => Some acc
  | String c s' =>
      if is_digit c then digits s' (10 * acc + digit_val c) else None
  end.

Definition float_of_str (s : string) : option Z :=
  match s with
  | EmptyString => None
  | String "-" EmptyString => None
  | String "-" s' => option_map Z.opp (digits s' 0)
  | _ => digits s 0
  end.

Definition float_repr (z : Z) : string :=
  NilZero.string_of_int (Z.to_int z) ++ ".0".

Fixpoint tag_end (s : string) : option string :=
  match s with
  | "/>" => Some ""
  | String c s' =>
      if (Ascii.eqb c "/" || Ascii.eqb c "<" || Ascii.eqb c ">" || Ascii.eqb c " ")%bool
      then None
      else option_map (String c) (tag_end s')
  | EmptyString => None
  end.

Definition ET_fromstring (s : string) : option string :=
  match s with
  | String "<" s' =>
      match tag_end s' with
      | Some "" => None
      | r => r
      end
  | _ => None
  end.

End SmallRuntime.

Definition small_runtime : PyRuntime := {|
  pyfloat := Z;
  float_of_str := SmallRuntime.float_of_str;
  float_of_int := fun z => Some z;
  float_repr := SmallRuntime.float_repr;
  float_truthy := fun z => negb (z =? 0);
  element := string;
  ET_fromstring := SmallRuntime.ET_fromstring;
  element_attrib := fun _ => []
|}.

(** ** Values *)

Section Values.
Context {R : PyRuntime}.

(** Scalars: what the methods take as arguments. *)
Inductive atom : Type :=
| ANone
| ABool (b : bool)
| AInt (z : Z)
| AFloat (f : pyfloat)
| AStr (s : string).

(** Values a response body decodes to and the snapshots hold: scalars,
    JSON arrays, JSON objects (keys in insertion order) and markup
    trees. *)
Inductive pyval : Type :=
| PAtom (a : atom)
| PList (l : list pyval)
| PDict (d : list (string * pyval))
| PElement (e : element).

Definition PNone : pyval := PAtom ANone.
Definition PStr (s : string) : pyval := PAtom (AStr s).
Definition PBool (b : bool) : pyval := PAtom (ABool b).
Definition PFloat (f : pyfloat) : pyval := PAtom (AFloat f).

(** [bool(x)]: the test of [if x] and of [x and y]. *)
Definition truthy (a : atom) : bool :=
  match a with
  | ANone => false
  | ABool b => b
  | AInt z => negb (z =? 0)
  | AFloat f => float_truthy f
  | AStr s => negb (s =? "")%string
  end.

(** ['{}'.format(x)], that is [str(x)]. *)
Definition fmt (a : atom) : string :=
  match a with
  | ANone => "None"
  | ABool true => "True"
  | ABool false => "False"
  | AInt z => NilZero.string_of_int (Z.to_int z)
  | AFloat f => float_repr f
  | AStr s => s
  end.

(** [x == s] for a string literal [s]: only a string equals a string. *)
Definition eq_str (v : pyval) (s : string) : bool :=
  match v with
  | PAtom (AStr s') => (s' =? s)%string
  | _ => false
  end.

(** *** Dictionaries *)

Definition dict : Type := list (string * pyval).

Fixpoint dict_lookup (k : string) (d : dict) : option pyval :=
  match d with
  | [] => None
  | (k', v) :: d' => if (k' =? k)%string then Some v else dict_lookup k d'
  end.

(** [d[k] = v]: replaces the value of an existing key in place, appends a
    new key. *)
Fixpoint dict_set (k : string) (v : pyval) (d : dict) : dict :=
  match d with
  | [] => [(k, v)]
  | (k', v') :: d' =>
      if (k' =? k)%string then (k', v) :: d' else (k', v') :: dict_set k v d'
  end.

Definition dict_keys (d : dict) : list string := map fst d.

Definition attrib_items (e : element) : dict :=
  map (fun kv => (fst kv, PStr (snd kv))) (element_attrib e).

(** [x.get(k, default)]: a method of dicts and of elements only. *)
Definition py_get (x : pyval) (k : string) (default : pyval) : outcome pyval :=
  match x with
  | PDict d =>
      Ret (match dict_lookup k d with Some v => v | None => default end)
  | PElement e =>
      Ret (match dict_lookup k (attrib_items e) with
           | Some v => v
           | None => default
           end)
  | _ => Raise AttributeError
  end.

(** [x.items()]. *)
Definition py_items (x : pyval) : outcome dict :=
  match x with
  | PDict d => Ret d
  | PElement e => Ret (attrib_items e)
  | _ => Raise AttributeError
  end.

(** [x.keys()]. *)
Definition py_keys (x : pyval) : outcome (list string) :=
  match x with
  | PDict d => Ret (dict_keys d)
  | PElement e => Ret (dict_keys (attrib_items e))
  | _ => Raise AttributeError
  end.

(** [float(x)]. *)
Definition py_float (x : pyval) : outcome pyfloat :=
  match x with
  | PAtom (AStr s) =>
      match float_of_str s with Some f => Ret f | None => Raise ValueError end
  | PAtom (AInt z) =>
      match float_of_int z with Some f => Ret f | None => Raise OverflowError end
  | PAtom (ABool b) =>
      match float_of_int (if b then 1 else 0) with
      | Some f => Ret f
      | None => Raise OverflowError
      end
  | PAtom (AFloat f) => Ret f
  | _ => Raise TypeError
  end.

(** [ET.fromstring(x)]: text is parsed, anything else is a [TypeError]. *)
Definition py_fromstring (x : pyval) : outcome pyval :=
  match x with
  | PAtom (AStr s) =>
      match ET_fromstring s with
      | Some e => Ret (PElement e)
      | None => Raise ParseError
      end
  | _ => Raise TypeError
  end.

End Values.

(** The error monad of pure code. *)
Definition obind {A B : Type} (o : outcome A) (k : A -> outcome B) : outcome B :=
  match o with
  | Ret a => k a
  | Raise e => Raise e
  end.

Notation "'let?' x ':=' o 'in' k" := (obind o (fun x => k))
  (at level 10, x pattern, o at level 200, k at level 200).

(** ** The module *)

Definition CONTENT_XML : string := "xml".
Definition CONTENT_JSON : string := "json".

Definition ALLOWED_ORIENTATIONS : list string :=
  ["landscape"; "upsidedown"; "portrait"; "upsidedown_portrait"].

Section State.
Context {R : PyRuntime}.

(** *** Collaborators *)

Inductive level : Type := ERROR | DEBUG.

(** What a call does to the outside, in order. *)
Inductive event : Type :=
| EvTimeout (t : atom)                   (* async_timeout.timeout(t) entered *)
| EvGet (url : string) (auth : pyval)    (* websession.get(url, auth=auth) *)
| EvText                                 (* response.text() *)
| EvJson                                 (* response.json() *)
| EvRelease                              (* response.release() *)
| EvLog (lvl : level) (msg : string).    (* _LOGGER.error / _LOGGER.debug *)

(** An aiohttp response: its status and what awaiting each of its
    coroutines gives. *)
Record ClientResponse : Type := {
  status : Z;
  text : outcome string;
  json : outcome pyval;
  release : option exn
}.

(** The session: what [get] answers, given what happened so far. *)
Definition session : Type := list event -> string -> pyval -> outcome ClientResponse.

Definition handle : Type := nat.

Record IPWebcam : Type := {
  loop : handle;
  websession : session;
  status_data : pyval;
  sensor_data : pyval;
  _host : atom;
  _port : atom;
  _auth : option (atom * atom);
  _timeout : atom
}.

(** [aiohttp.BasicAuth(username, password=password)]. *)
Definition BasicAuth (username password : atom) : atom * atom :=
  (username, password).

Definition default_timeout : atom := AInt 10.

Definition __init__ (loop : handle) (websession : session)
    (host port username password timeout : atom) : IPWebcam :=
  {| loop := loop;
     websession := websession;
     status_data := PNone;
     sensor_data := PNone;
     _host := host;
     _port := port;
     _auth := if truthy username && truthy password
              then Some (BasicAuth username password)
              else None;
     _timeout := ANone |}.

Definition base_url (self : IPWebcam) : string :=
  "http://" ++ fmt (_host self) ++ ":" ++ fmt (_port self).

Definition mjpeg_url (self : IPWebcam) : string := base_url self ++ "/video".

Definition image_url (self : IPWebcam) : string := base_url self ++ "/photo.jpg".

(** *** State: the object and the trace of its effects *)

Record heap : Type := {
  self : IPWebcam;
  trace : list event
}.

Definition M (A : Type) : Type := heap -> outcome A * heap.

Definition ret {A : Type} (a : A) : M A := fun h => (Ret a, h).

Definition bind {A B : Type} (m : M A) (k : A -> M B) : M B :=
  fun h =>
    match m h with
    | (Ret a, h') => k a h'
    | (Raise e, h') => (Raise e, h')
    end.

Definition emit (e : event) (h : heap) : heap :=
  {| self := self h; trace := trace h ++ [e] |}.

Definition set_status_data (v : pyval) : M unit :=
  fun h =>
    let o := self h in
    (Ret tt,
     {| self := {| loop := loop o; websession := websession o;
                   status_data := v; sensor_data := sensor_data o;
                   _host := _host o; _port := _port o;
                   _auth := _auth o; _timeout := _timeout o |};
        trace := trace h |}).

Definition set_sensor_data (v : pyval) : M unit :=
  fun h =>
    let o := self h in
    (Ret tt,
     {| self := {| loop := loop o; websession := websession o;
                   status_data := status_data o; sensor_data := v;
                   _host := _host o; _port := _port o;
                   _auth := _auth o; _timeout := _timeout o |};
        trace := trace h |}).

End State.

Notation "x <- m ;; k" := (bind m (fun x => k))
  (at level 61, m at next level, right associativity).

Section Program.
Context {R : PyRuntime}.

(** *** Names the module reads and never binds

    [_request] reads [auth] and [record] reads [quote]; neither is a
    parameter, a local, an import or a builtin, so Python looks them up
    among the module's globals when the line runs.  What they are bound
    to, if anything, is the namespace. *)
Record namespace : Type := {
  g_auth : option pyval;
  g_quote : option (atom -> outcome atom)
}.

(** The namespace the source file creates: neither name is bound. *)
Definition module_namespace : namespace :=
  {| g_auth := None; g_quote := None |}.

(** *** [_request] *)

Record locals : Type := {
  response : option ClientResponse;
  data : pyval
}.

(** The first [try] body: the [with async_timeout.timeout(...)] block.
    Gives the locals as the block left them and the exception it raised,
    if any. *)
Definition fetch (G : namespace) (url content : string) (h : heap)
    : (locals * option exn) * heap :=
  let l0 := {| response := None; data := PNone |} in
  let h := emit (EvTimeout (_timeout (self h))) h in
  match g_auth G with
  | None => ((l0, Some (NameError "auth")), h)
  | Some auth =>
      let reply := websession (self h) (trace h) url auth in
      let h := emit (EvGet url auth) h in
      match reply with
      | Raise e => ((l0, Some e), h)
      | Ret r =>
          let l := {| response := Some r; data := PNone |} in
          if status r =? 200 then
            if (content =? CONTENT_XML)%string then
              let h := emit EvText h in
              match text r with
              | Ret s => (({| response := Some r; data := PStr s |}, None), h)
              | Raise e => ((l, Some e), h)
              end
            else if (content =? CONTENT_JSON)%string then
              let h := emit EvJson h in
              match json r with
              | Ret v => (({| response := Some r; data := v |}, None), h)
              | Raise e => ((l, Some e), h)
              end
            else ((l, None), h)
          else ((l, None), h)
      end
  end.

(** [except (asyncio.TimeoutError, aiohttp.errors.ClientError,
    aiohttp.errors.ClientDisconnectedError)]. *)
Definition transport_failure (e : exn) : bool :=
  match e with
  | TimeoutError | ClientError | ClientDisconnectedError => true
  | _ => false
  end.

(** [except (ET.ParseError, TypeError, AttributeError)]. *)
Definition invalid_response (e : exn) : bool :=
  match e with
  | ParseError | TypeError | AttributeError => true
  | _ => false
  end.

(** What a [try] statement is about to do when its [finally] runs. *)
Inductive pending : Type :=
| Fallthrough
| Returning (v : pyval)
| Raising (e : exn).

Definition _request (G : namespace) (path content : string) : M pyval :=
  fun h =>
    let url := (base_url (self h) ++ path)%string in
    let '((l, exc), h) := fetch G url content h in
    (* except *)
    let '(p, h) :=
      match exc with
      | None => (Fallthrough, h)
      | Some e =>
          if transport_failure e
          then (Returning PNone,
                emit (EvLog ERROR "Failed to communicate with IP Webcam: %s") h)
          else (Raising e, h)
      end in
    (* finally *)
    let '(released, h) :=
      match response l with
      | None => (None, h)
      | Some r => (release r, emit EvRelease h)
      end in
    match released with
    | Some e => (Raise e, h)
    | None =>
        match p with
        | Returning v => (Ret v, h)
        | Raising e => (Raise e, h)
        | Fallthrough =>
            match (if (CONTENT_XML =? "xml")%string
                   then py_fromstring (data l)
                   else Ret (data l)) with
            | Ret v => (Ret v, h)
            | Raise e =>
                if invalid_response e
                then (Ret PNone,
                      emit (EvLog ERROR "Received invalid response: %s") h)
                else (Raise e, h)
            end
        end
    end.

(** *** [update] *)

Definition update (G : namespace) : M pyval :=
  v <- _request G "/status.json" CONTENT_JSON ;;
  _ <- set_status_data v ;;
  w <- _request G "/sensors.json" CONTENT_JSON ;;
  _ <- set_sensor_data w ;;
  ret PNone.

(** *** Properties read from the snapshots *)

Definition enabled_sensors (self : IPWebcam) : outcome pyval :=
  let? ks := py_keys (sensor_data self) in
  Ret (PList (map PStr ks)).

Definition is_none (v : pyval) : bool :=
  match v with
  | PAtom ANone => true
  | _ => false
  end.

(** One turn of the loop of [current_settings] on the item [(key, val)]. *)
Definition settings_step (settings : dict) (item : string * pyval)
    : outcome dict :=
  let '(key, val) := item in
  let? val :=
    match py_float val with
    | Ret f => Ret (PFloat f)
    | Raise ValueError => Ret val
    | Raise e => Raise e
    end in
  let val :=
    if eq_str val "on" || eq_str val "off"
    then PBool (eq_str val "on")
    else val in
  Ret (dict_set key val settings).

Fixpoint settings_loop (items : dict) (settings : dict) : outcome dict :=
  match items with
  | [] => Ret settings
  | item :: items' =>
      let? settings' := settings_step settings item in
      settings_loop items' settings'
  end.

Definition current_settings (self : IPWebcam) : outcome pyval :=
  let settings : dict := [] in
  if negb (is_none (status_data self)) then
    let? curvals := py_get (status_data self) "curvals" (PDict []) in
    let? items := py_items curvals in
    let? settings := settings_loop items settings in
    Ret (PDict settings)
  else Ret PNone.

(** *** Operations

    A method that is a plain [def] ending in [return self._request(...)]
    returns the coroutine without running it: such a method is modelled as
    the coroutine it returns, an [M pyval] that runs when it is driven. *)

Definition change_setting (G : namespace) (key val : atom) : M pyval :=
  let payload :=
    match val with
    | ABool b => AStr (if b then "on" else "off")
    | _ => val
    end in
  _request G ("/settings/" ++ fmt key ++ "?set=" ++ fmt payload)%string CONTENT_XML.

Definition torch (G : namespace) (activate : atom) : M pyval :=
  let path := if truthy activate then "/enabletorch" else "/disabletorch" in
  _request G path CONTENT_XML.

Definition focus (G : namespace) (activate : atom) : M pyval :=
  let path := if truthy activate then "/focus" else "/nofocus" in
  _request G path CONTENT_XML.

(** [record] reads [quote] while it builds the path, before any coroutine
    exists: the call itself can raise. *)
Definition record (G : namespace) (record tag : atom) : outcome (M pyval) :=
  let path := if truthy record then "/startvideo?force=1" else "/stopvideo?force=1" in
  let? path :=
    if truthy record && negb (is_none (PAtom tag)) then
      match g_quote G with
      | None => Raise (NameError "quote")
      | Some quote =>
          let? quoted := quote tag in
          Ret ("/startvideo?force=1&tag=" ++ fmt quoted)%string
      end
    else Ret path in
  Ret (_request G path CONTENT_JSON).

Definition set_front_facing_camera (G : namespace) (activate : atom) : M pyval :=
  change_setting G (AStr "ffc") activate.

Definition set_night_vision (G : namespace) (activate : atom) : M pyval :=
  change_setting G (AStr "night_vision") activate.

Definition set_overlay (G : namespace) (activate : atom) : M pyval :=
  change_setting G (AStr "overlay") activate.

Definition set_gps_active (G : namespace) (activate : atom) : M pyval :=
  change_setting G (AStr "gps_active") activate.

Definition set_quality (G : namespace) (quality : atom) : M pyval :=
  change_setting G (AStr "quality") quality.

(** What a method hands back: a plain value or a coroutine. *)
Inductive returned : Type :=
| Value (v : pyval)
| Coroutine (c : M pyval).

(** [set_orientation] logs and answers at once on a value outside the
    list; its call is a step on the heap. *)
Definition set_orientation (G : namespace) (orientation : atom) : M returned :=
  fun h =>
    if negb (existsb (eq_str (PAtom orientation)) ALLOWED_ORIENTATIONS) then
      (Ret (Value (PBool false)),
       emit (EvLog DEBUG "%s is not a valid orientation") h)
    else (Ret (Coroutine (change_setting G (AStr "orientation") orientation)), h).

Definition set_zoom (G : namespace) (zoom : atom) : M pyval :=
  _request G ("/settings/ptz?zoom=" ++ fmt zoom)%string CONTENT_XML.

(** *** Calling an operation and driving what it returns *)

Inductive mutator : Type :=
| Change_setting (key val : atom)
| Torch (activate : atom)
| Focus (activate : atom)
| Record_ (record tag : atom)
| Set_front_facing_camera (activate : atom)
| Set_night_vision (activate : atom)
| Set_overlay (activate : atom)
| Set_gps_active (activate : atom)
| Set_quality (quality : atom)
| Set_orientation (orientation : atom)
| Set_zoom (zoom : atom).

Definition call (G : namespace) (m : mutator) : M returned :=
  match m with
  | Change_setting key val => ret (Coroutine (change_setting G key val))
  | Torch a => ret (Coroutine (torch G a))
  | Focus a => ret (Coroutine (focus G a))
  | Record_ r tag =>
      fun h =>
        match record G r tag with
        | Ret c => (Ret (Coroutine c), h)
        | Raise e => (Raise e, h)
        end
  | Set_front_facing_camera a => ret (Coroutine (set_front_facing_camera G a))
  | Set_night_vision a => ret (Coroutine (set_night_vision G a))
  | Set_overlay a => ret (Coroutine (set_overlay G a))
  | Set_gps_active a => ret (Coroutine (set_gps_active G a))
  | Set_quality q => ret (Coroutine (set_quality G q))
  | Set_orientation o => set_orientation G o
  | Set_zoom z => ret (Coroutine (set_zoom G z))
  end.

(** The caller's [yield from]: a coroutine runs, anything else is not
    iterable. *)
Definition drive (r : returned) : M pyval :=
  match r with
  | Coroutine c => c
  | Value _ => fun h => (Raise TypeError, h)
  end.

(** What the new part of a trace did. *)
Definition is_release (e : event) : bool :=
  match e with EvRelease => true | _ => false end.

Definition is_get (e : event) : bool :=
  match e with EvGet _ _ => true | _ => false end.

Definition releases (t : list event) : nat := length (filter is_release t).

Definition gets (t : list event) : nat := length (filter is_get t).

(** Whether a fetch from heap [h] obtains a response: [auth] resolves and
    the session answers [get] with a response. *)
Definition acquires (G : namespace) (url : string) (h : heap) : bool :=
  match g_auth G with
  | None => false
  | Some auth =>
      match websession (self h) (trace h ++ [EvTimeout (_timeout (self h))]) url auth with
      | Ret _ => true
      | Raise _ => false
      end
  end.

End Program.

(** ** The settings view as the spec words it *)

Section SettingsView.
Context {R : PyRuntime}.

(** The coercion of one value of the current-values map, following the
    spec: the strings on and off become the booleans, a numeric string (one
    [float] reads) becomes the number, every other string is left as it
    is. *)
Definition coerce_spec (s : string) : pyval :=
  if (s =? "on")%string then PBool true
  else if (s =? "off")%string then PBool false
  else match float_of_str s with
       | Some f => PFloat f
       | None => PStr s
       end.

(** A mapping whose values are all strings, as a dictionary. *)
Definition string_items (cv : list (string * string)) : dict :=
  map (fun kv => (fst kv, PStr (snd kv))) cv.

(** The settings view of such a mapping: each value coerced, keys kept. *)
Definition settings_view (cv : list (string * string)) : dict :=
  map (fun kv => (fst kv, coerce_spec (snd kv))) cv.

End SettingsView.

(** ** Scenarios: sessions, responses and namespaces to run the model on *)

Section Scenarios.
Context {R : PyRuntime}.

(** A session that answers every [get] with the same response. *)
Definition always (r : ClientResponse) : session := fun _ _ _ => Ret r.

(** A session whose every [get] fails to connect. *)
Definition unreachable : session := fun _ _ _ => Raise ClientError.

(** A 200 response whose body decodes to [v] as JSON. *)
Definition json_response (v : pyval) : ClientResponse :=
  {| status := 200; text := Ret ""; json := Ret v; release := None |}.

(** A 200 response whose body is not JSON: [json()] raises. *)
Definition broken_json_response : ClientResponse :=
  {| status := 200; text := Ret "{"; json := Raise ValueError; release := None |}.

(** The module's namespace with [auth] bound besides. *)
Definition with_auth (auth : pyval) : namespace :=
  {| g_auth := Some auth; g_quote := None |}.

(** A camera as the constructor makes it, without credentials. *)
Definition camera (s : session) : IPWebcam :=
  __init__ 0%nat s (AStr "192.168.1.20") (AInt 8080) ANone ANone default_timeout.

(** The same camera with both snapshots filled in. *)
Definition populated (s : session) (status sensors : pyval) : IPWebcam :=
  {| loop := 0%nat; websession := s;
     status_data := status; sensor_data := sensors;
     _host := AStr "192.168.1.20"; _port := AInt 8080;
     _auth := None; _timeout := ANone |}.

Definition fresh (o : IPWebcam) : heap := {| self := o; trace := [] |}.

(** The status snapshot of the spec's example. *)
Definition example_status : pyval :=
  PDict [("curvals", PDict (string_items [("quality", "80"); ("night_vision", "on")]))].

(** The sensor snapshot of the spec's example. *)
Definition example_sensors : pyval :=
  PDict [("light", PDict []); ("battery_temp", PDict [])].

(** A camera that cannot be reached, both snapshots filled in earlier. *)
Definition stale_heap : heap :=
  fresh (populated unreachable example_status example_sensors).

(** A session that answers the status fetch with a JSON string holding
    markup and every other [get] with a body that is not JSON. *)
Definition status_only : session :=
  fun _ url _ =>
    if (url =? "http://192.168.1.20:8080/status.json")%string
    then Ret (json_response (PStr "<status/>"))
    else Ret broken_json_response.

(** A 200 response with well-formed markup whose [release()] fails. *)
Definition stuck_response : ClientResponse :=
  {| status := 200; text := Ret "<result/>"; json := Ret PNone;
     release := Some ClientError |}.

(** A response with a status other than 200. *)
Definition not_found_response : ClientResponse :=
  {| status := 404; text := Ret "<result/>"; json := Ret (PDict []);
     release := None |}.

(** A 200 response with well-formed markup. *)
Definition markup_response : ClientResponse :=
  {| status := 200; text := Ret "<result/>"; json := Raise ValueError;
     release := None |}.

(** A new camera whose every fetch is answered with a JSON string holding
    markup. *)
Definition markup_heap : heap :=
  fresh (camera (always (json_response (PStr "<a/>")))).

(** A status snapshot whose quality is JSON null. *)
Definition null_status : pyval :=
  PDict [("curvals", PDict [("quality", PNone)])].

End Scenarios.

(** ** Reading traces and results *)

Section Observations.
Context {R : PyRuntime}.

Definition is_log (e : event) : bool :=
  match e with EvLog _ _ => true | _ => false end.

(** Whether, once [release] is in the trace, only log lines follow it. *)
Fixpoint quiet_after_release (t : list event) : bool :=
  match t with
  | [] => true
  | EvRelease :: t' => forallb is_log t'
  | _ :: t' => quiet_after_release t'
  end.

Definition is_element (v : pyval) : bool :=
  match v with PElement _ => true | _ => false end.

(** The kinds of value the loop of [current_settings] stores: a float, a
    boolean or a string. *)
Definition is_setting_value (v : pyval) : bool :=
  match v with
  | PAtom (AFloat _) | PAtom (ABool _) | PAtom (AStr _) => true
  | _ => false
  end.

(** What [update] leaves alone: every field but the two snapshots. *)
Definition same_configuration (o o' : IPWebcam) : Prop :=
  loop o' = loop o
  /\ websession o' = websession o
  /\ _host o' = _host o
  /\ _port o' = _port o
  /\ _auth o' = _auth o
  /\ _timeout o' = _timeout o.

End Observations.

(** * Properties *)

Section Properties.
Context {R : PyRuntime}.

(** ** Proof steps shared by the lemmas on [_request] *)

(** Splits on the innermost scrutinee left in the goal, until none is. *)
Ltac split_case :=
  match goal with
  | |- context [match ?x with _ => _ end] =>
      lazymatch x with
      | context [match _ with _ => _ end] => fail
      | _ => destruct x eqn:?
      end
  end.

Ltac run_request :=
  unfold _request, fetch; cbn [self trace emit];
  repeat (split_case; cbn [self trace emit fst snd response data]).

Lemma releases_app (t u : list event) :
  releases (t ++ u) = (releases t + releases u)%nat.
Proof.
  unfold releases. rewrite filter_app, length_app. reflexivity.
Qed.

Lemma gets_app (t u : list event) :
  gets (t ++ u) = (gets t + gets u)%nat.
Proof.
  unfold gets. rewrite filter_app, length_app. reflexivity.
Qed.

(** [_request] reads the object and never writes it. *)
Lemma request_self (G : namespace) (path content : string) (h : heap) :
  self (snd (_request G path content h)) = self h.
Proof.
  run_request; reflexivity.
Qed.

(** [_request] only adds to the trace, and what it adds starts with the
    entry into the bounded wait on the field [_timeout]. *)
Lemma request_trace (G : namespace) (path content : string) (h : heap) :
  exists rest,
    trace (snd (_request G path content h))
    = trace h ++ EvTimeout (_timeout (self h)) :: rest.
Proof.
  run_request; cbn [snd trace emit self];
    repeat rewrite <- app_assoc; cbn [app]; eexists; reflexivity.
Qed.

(** What [_request] puts on the wire when [auth] resolves: one [get], to
    the base URL followed by the path. *)
Lemma request_gets_url (G : namespace) (auth : pyval) (path content : string)
    (h : heap) :
  g_auth G = Some auth ->
  exists rest,
    trace (snd (_request G path content h))
    = trace h ++ EvTimeout (_timeout (self h))
              :: EvGet (base_url (self h) ++ path)%string auth :: rest
    /\ gets rest = 0%nat.
Proof.
  intros Hauth. unfold _request, fetch. rewrite Hauth. cbn [self trace emit].
  repeat (split_case; cbn [self trace emit fst snd response data]);
    repeat rewrite <- app_assoc; cbn [app]; eexists; split;
    reflexivity.
Qed.

(** ** The claims *)

(** C1 (the code departs from it).  The claim: a fetch with the JSON hint
    that receives a 200 response with a well-formed body returns the parsed
    value unchanged.  The code, on a camera whose session answers every
    [get] with a 200 response decoding to the JSON object [d]: in the
    module's own namespace the fetch raises [NameError] before any [get];
    with [auth] bound the object decoded by [json()] is handed to
    [ET.fromstring], whose [TypeError] is caught, and the fetch returns
    [None].  In neither case is the result the object [d]. *)
Theorem request_json_object_is_lost (d : dict) (auth : pyval) (path : string)
    (t : list event) :
  let h := {| self := camera (always (json_response (PDict d))); trace := t |} in
  fst (_request module_namespace path CONTENT_JSON h) = Raise (NameError "auth")
  /\ fst (_request (with_auth auth) path CONTENT_JSON h) = Ret PNone
  /\ fst (_request (with_auth auth) path CONTENT_JSON h) <> Ret (PDict d).
Proof.
  cbv zeta. split; [reflexivity | split; [reflexivity | discriminate]].
Qed.

(** C2 (the code departs from it).  The claim: no exception ever leaves
    [_request].  The code: in the module's own namespace every call of
    [_request], whatever the path, the hint, the object and the session,
    raises [NameError] on the unbound name [auth], having done nothing but
    enter the bounded wait; and with [auth] bound, a 200 response whose
    body is not JSON makes [json()] raise inside the first [try], whose
    handler lists transport errors only, so the [ValueError] leaves
    [_request] too. *)
Theorem request_propagates_exceptions (path content : string) (h : heap) :
  _request module_namespace path content h
  = (Raise (NameError "auth"), emit (EvTimeout (_timeout (self h))) h)
  /\ forall auth t,
      fst (_request (with_auth auth) path CONTENT_JSON
             {| self := camera (always broken_json_response); trace := t |})
      = Raise ValueError.
Proof.
  split; [reflexivity | intros; reflexivity].
Qed.

(** [update] assigns the two snapshots and nothing else: the field
    [_timeout] is as it was. *)
Lemma update_timeout (G : namespace) (h : heap) :
  _timeout (self (snd (update G h))) = _timeout (self h).
Proof.
  unfold update, bind.
  pose proof (request_self G "/status.json" CONTENT_JSON h) as H1.
  destruct (_request G "/status.json" CONTENT_JSON h) as [[v | e] h1];
    cbn [snd] in H1 |- *; [| rewrite H1; reflexivity].
  cbn [set_status_data].
  match goal with
  | |- context [_request G "/sensors.json" CONTENT_JSON ?x] => set (h1' := x)
  end.
  pose proof (request_self G "/sensors.json" CONTENT_JSON h1') as H2.
  destruct (_request G "/sensors.json" CONTENT_JSON h1') as [[w | e] h2];
    cbn [snd set_sensor_data ret self _timeout] in H2 |- *;
    rewrite H2; subst h1'; cbn [self _timeout]; rewrite H1; reflexivity.
Qed.

(** C3.  Whatever timeout the constructor is given, the field [_timeout]
    of the object it builds is [None]; that field is what [_request]
    enters its bounded wait with, so every fetch on the new object waits
    with [None]; and neither [_request] nor [update] assigns the field. *)
Theorem timeout_is_never_wired (lp : handle) (s : session)
    (host port username password timeout : atom) :
  let o := __init__ lp s host port username password timeout in
  _timeout o = ANone
  /\ forall G t,
      (forall path content,
          let h' := snd (_request G path content {| self := o; trace := t |}) in
          (exists rest, trace h' = t ++ EvTimeout ANone :: rest)
          /\ _timeout (self h') = ANone)
      /\ _timeout (self (snd (update G {| self := o; trace := t |}))) = ANone.
Proof.
  cbv zeta. split; [reflexivity |]. intros G t. split.
  - intros path content. split.
    + destruct (request_trace G path content
                  {| self := __init__ lp s host port username password timeout;
                     trace := t |}) as [rest Hrest].
      exists rest. exact Hrest.
    + rewrite request_self. reflexivity.
  - rewrite update_timeout. reflexivity.
Qed.

(** C4.  For every call of [_request] and every outcome of it, the events
    the call adds to the trace contain exactly one [release] when the call
    obtained a response, and none when it did not (the name [auth] did not
    resolve or [get] raised). *)
Theorem release_exactly_once (G : namespace) (path content : string) (h : heap) :
  exists new,
    trace (snd (_request G path content h)) = trace h ++ new
    /\ releases new
       = if acquires G (base_url (self h) ++ path)%string h then 1%nat else 0%nat.
Proof.
  unfold acquires, _request, fetch; cbn [self trace emit].
  repeat (split_case; cbn [self trace emit fst snd response data]);
    repeat rewrite <- app_assoc; cbn [app]; eexists; split;
    try reflexivity; congruence.
Qed.


(** [set_orientation] as a function of its argument: when the string is one of
    landscape, upsidedown, portrait, upsidedown_portrait, the call changes
    nothing and returns the coroutine of the change-setting request for it,
    the fetch of [/settings/orientation?set=] followed by the string; on
    any other string the call returns [False], adds no [get] to the trace
    (only a debug line) and leaves the object alone.  A value that is not a
    string is refused the same way. *)
Lemma set_orientation_allow_list (G : namespace) (h : heap) :
  (forall s,
      In s ["landscape"; "upsidedown"; "portrait"; "upsidedown_portrait"] ->
      set_orientation G (AStr s) h
      = (Ret (Coroutine (change_setting G (AStr "orientation") (AStr s))), h)
      /\ change_setting G (AStr "orientation") (AStr s)
         = _request G ("/settings/orientation?set=" ++ s)%string CONTENT_XML)
  /\ (forall o,
        (forall s,
            In s ["landscape"; "upsidedown"; "portrait"; "upsidedown_portrait"] ->
            o <> AStr s) ->
        let h' := snd (set_orientation G o h) in
        fst (set_orientation G o h) = Ret (Value (PBool false))
        /\ gets (trace h') = gets (trace h)
        /\ self h' = self h).
Proof.
  split.
  - intros s Hs. split; [| reflexivity].
    cbn [In] in Hs.
    destruct Hs as [<- | [<- | [<- | [<- | []]]]]; reflexivity.
  - intros o Ho. cbv zeta. unfold set_orientation.
    assert (Hout : existsb (eq_str (PAtom o)) ALLOWED_ORIENTATIONS = false).
    { destruct (existsb (eq_str (PAtom o)) ALLOWED_ORIENTATIONS) eqn:E;
        [| reflexivity].
      apply existsb_exists in E. destruct E as [s [Hin Heq]].
      destruct o as [| b | z | f | s']; cbn [eq_str] in Heq; try discriminate.
      apply String.eqb_eq in Heq. subst s'.
      exfalso. apply (Ho s); [exact Hin | reflexivity]. }
    rewrite Hout. cbn [negb fst snd trace emit self].
    rewrite gets_app. cbn. split; [reflexivity | split; [lia | reflexivity]].
Qed.

(** The fetch [change_setting] returns.  For every key: with [True] it is the fetch of
    [/settings/{key}?set=on], with [False] the fetch of
    [/settings/{key}?set=off], and with any value that is not a boolean the
    fetch of [/settings/{key}?set={value}], the value formatted as it is;
    driven where [auth] resolves, that fetch makes one [get], to the base
    URL followed by this path. *)
Lemma change_setting_encoding (G : namespace) (key : atom) :
  change_setting G key (ABool true)
  = _request G ("/settings/" ++ fmt key ++ "?set=on")%string CONTENT_XML
  /\ change_setting G key (ABool false)
     = _request G ("/settings/" ++ fmt key ++ "?set=off")%string CONTENT_XML
  /\ (forall val,
        (forall b, val <> ABool b) ->
        change_setting G key val
        = _request G ("/settings/" ++ fmt key ++ "?set=" ++ fmt val)%string
            CONTENT_XML)
  /\ (forall val auth h,
        g_auth G = Some auth ->
        let payload :=
          match val with
          | ABool true => "on"
          | ABool false => "off"
          | _ => fmt val
          end in
        exists rest,
          trace (snd (change_setting G key val h))
          = trace h ++ EvTimeout (_timeout (self h))
                    :: EvGet (base_url (self h) ++ "/settings/" ++ fmt key
                              ++ "?set=" ++ payload)%string auth
                    :: rest
          /\ gets rest = 0%nat).
Proof.
  split; [reflexivity | split; [reflexivity | split]].
  - intros val Hval. destruct val as [| b | z | f | s]; try reflexivity.
    exfalso. apply (Hval b). reflexivity.
  - intros val auth h Hauth. cbv zeta. unfold change_setting.
    destruct (request_gets_url G auth
                ("/settings/" ++ fmt key ++ "?set=" ++
                 fmt match val with
                     | ABool b => AStr (if b then "on" else "off")
                     | _ => val
                     end)%string CONTENT_XML h Hauth) as [rest [Ht Hg]].
    exists rest. split; [| exact Hg].
    rewrite Ht. destruct val as [| [|] | z | f | s]; reflexivity.
Qed.

(** A key has a value in a dictionary exactly when it heads one of its
    entries. *)
Lemma dict_lookup_entry (k : string) (d : dict) :
  dict_lookup k d <> None <-> exists v, In (k, v) d.
Proof.
  induction d as [| [k' v'] d IH]; cbn [dict_lookup In].
  - split; [intros H; exfalso; apply H; reflexivity | intros [v []]].
  - destruct (String.eqb_spec k' k) as [-> | Hne].
    + split; [intros _; exists v'; left; reflexivity | intros _; discriminate].
    + rewrite IH. split.
      * intros [v Hin]. exists v. right. exact Hin.
      * intros [v [Heq | Hin]]; [injection Heq as Hk _; contradiction |].
        exists v. exact Hin.
Qed.

(** C9.  When the sensor snapshot is the mapping [d], [enabled_sensors]
    returns the list of the keys of the entries of [d], one per entry and in
    their order: a name is in the list exactly when [d] has an entry under
    it, that is exactly when looking it up in [d] finds a value, and the
    list repeats no name when [d] repeats no key.  On the snapshot
    [{"light": {...}, "battery_temp": {...}}] it returns [["light",
    "battery_temp"]].  When the snapshot is absent it raises
    ([AttributeError]) instead of returning an absent or empty result, as on
    a camera that was never updated. *)
Theorem enabled_sensors_lists_keys (self : IPWebcam) :
  (forall d,
      sensor_data self = PDict d ->
      exists ks,
        enabled_sensors self = Ret (PList (map PStr ks))
        /\ ks = map (fun entry => fst entry) d
        /\ length ks = length d
        /\ (forall k, In k ks <-> exists v, In (k, v) d)
        /\ (forall k, In k ks <-> dict_lookup k d <> None)
        /\ (NoDup (map (fun entry => fst entry) d) -> NoDup ks))
  /\ enabled_sensors (populated unreachable example_status example_sensors)
     = Ret (PList [PStr "light"; PStr "battery_temp"])
  /\ (sensor_data self = PNone -> enabled_sensors self = Raise AttributeError)
  /\ enabled_sensors (camera unreachable) = Raise AttributeError.
Proof.
  split; [| split; [reflexivity | split; [| reflexivity]]].
  - intros d Hd. exists (map (fun entry => fst entry) d).
    assert (Hin : forall k,
               In k (map (fun entry : string * pyval => fst entry) d)
               <-> exists v, In (k, v) d).
    { intros k. rewrite in_map_iff. split.
      - intros [[k' v] [Hk Hkv]]. cbn [fst] in Hk. subst k'. exists v. exact Hkv.
      - intros [v Hkv]. exists (k, v). split; [reflexivity | exact Hkv]. }
    split; [| split; [reflexivity | split; [apply length_map | split; [exact Hin |]]]].
    + unfold enabled_sensors. rewrite Hd. reflexivity.
    + split.
      * intros k. rewrite Hin, dict_lookup_entry. reflexivity.
      * intros Hnd. exact Hnd.
  - intros Hn. unfold enabled_sensors. rewrite Hn. reflexivity.
Qed.

(** Calling an operation leaves the object as it is. *)
Lemma call_self (G : namespace) (m : mutator) (h : heap) :
  self (snd (call G m h)) = self h.
Proof.
  destruct m as [key val | a | a | r tag | a | a | a | a | q | o | z];
    cbn [call ret snd]; try reflexivity.
  - destruct (record G r tag); reflexivity.
  - unfold set_orientation.
    destruct (negb (existsb (eq_str (PAtom o)) ALLOWED_ORIENTATIONS));
      reflexivity.
Qed.

(** The coroutine an operation returns is a fetch. *)
Lemma call_returns_request (G : namespace) (m : mutator) (h : heap)
    (c : M pyval) :
  fst (call G m h) = Ret (Coroutine c) ->
  exists path content, c = _request G path content.
Proof.
  destruct m as [key val | a | a | r tag | a | a | a | a | q | o | z];
    cbn [call ret fst]; intros Hc.
  1-3,5-9,11: injection Hc as <-; eexists; eexists; reflexivity.
  - unfold record in Hc.
    destruct (truthy r && negb (is_none (PAtom tag)));
      [destruct (g_quote G) as [quote |];
       [destruct (quote tag) |] |];
      cbn in Hc; try discriminate;
      injection Hc as <-; eexists; eexists; reflexivity.
  - unfold set_orientation in Hc.
    destruct (negb (existsb (eq_str (PAtom o)) ALLOWED_ORIENTATIONS));
      cbn in Hc; [discriminate |].
    injection Hc as <-. eexists; eexists; reflexivity.
Qed.

(** C10.  Each of the eleven operations leaves both snapshots as they
    were: the call does, and so does driving what the call returned, from
    whatever heap it is driven.  ([update] is the operation that assigns
    them: it stores the results of its two fetches.) *)
Theorem mutators_preserve_snapshots (G : namespace) (m : mutator) (h : heap) :
  let h1 := snd (call G m h) in
  status_data (self h1) = status_data (self h)
  /\ sensor_data (self h1) = sensor_data (self h)
  /\ forall r h2,
      fst (call G m h) = Ret r ->
      status_data (self (snd (drive r h2))) = status_data (self h2)
      /\ sensor_data (self (snd (drive r h2))) = sensor_data (self h2).
Proof.
  cbv zeta. rewrite call_self. split; [reflexivity | split; [reflexivity |]].
  intros [v | c] h2 Hr; cbn [drive snd]; [split; reflexivity |].
  destruct (call_returns_request G m h c Hr) as [path [content ->]].
  rewrite request_self. split; reflexivity.
Qed.

(** ** [current_settings] *)

Lemma dict_set_fresh (k : string) (v : pyval) (d : dict) :
  ~ In k (dict_keys d) -> dict_set k v d = d ++ [(k, v)].
Proof.
  induction d as [| [k' v'] d IH]; intros Hk; [reflexivity |].
  cbn [dict_set app]. cbn [dict_keys map fst In] in Hk.
  destruct (String.eqb_spec k' k) as [-> | Hne].
  - exfalso. apply Hk. left. reflexivity.
  - rewrite IH; [reflexivity |].
    intros Hin. apply Hk. right. exact Hin.
Qed.

(** One turn of the loop on a string value stores the coerced value,
    provided [float] refuses the two words, as Python's does. *)
Lemma settings_step_string (acc : dict) (k s : string) :
  float_of_str "on" = None ->
  float_of_str "off" = None ->
  settings_step acc (k, PStr s) = Ret (dict_set k (coerce_spec s) acc).
Proof.
  intros Hon Hoff. unfold settings_step, coerce_spec, PStr.
  cbn [py_float obind eq_str].
  destruct (String.eqb_spec s "on") as [-> | Non].
  - rewrite Hon. reflexivity.
  - destruct (String.eqb_spec s "off") as [-> | Noff].
    + rewrite Hoff. reflexivity.
    + destruct (float_of_str s) as [f |] eqn:Hf; cbn [obind eq_str orb].
      * reflexivity.
      * destruct (String.eqb_spec s "on"); [contradiction |].
        destruct (String.eqb_spec s "off"); [contradiction |].
        reflexivity.
Qed.

Lemma settings_loop_strings (cv : list (string * string)) :
  float_of_str "on" = None ->
  float_of_str "off" = None ->
  forall acc,
    NoDup (map fst cv) ->
    (forall k, In k (map fst cv) -> ~ In k (dict_keys acc)) ->
    settings_loop (string_items cv) acc = Ret (acc ++ settings_view cv).
Proof.
  intros Hon Hoff.
  induction cv as [| [k s] cv IH]; intros acc Hnd Hfresh.
  - cbn. rewrite app_nil_r. reflexivity.
  - cbn [string_items map settings_loop fst snd].
    rewrite (settings_step_string acc k s Hon Hoff). cbn [obind].
    rewrite dict_set_fresh by (apply Hfresh; left; reflexivity).
    fold (string_items cv).
    cbn [map fst] in Hnd. inversion Hnd as [| k' l' Hnotin Hnd' ]; subst.
    rewrite IH.
    + rewrite <- app_assoc. reflexivity.
    + exact Hnd'.
    + intros k' Hin. unfold dict_keys. rewrite map_app, in_app_iff.
      intros [Hacc | Hnew].
      * apply (Hfresh k'); [right; exact Hin | exact Hacc].
      * cbn in Hnew. destruct Hnew as [<- | []]. contradiction.
Qed.

(** C7.  Where [float] refuses the words on and off (as Python's does): on
    a status snapshot that is a mapping whose [curvals] entry maps distinct
    keys to strings, [current_settings] is that map with every value coerced
    as the spec words it, numeric string to number, on/off to boolean, any
    other string unchanged.  In particular, where [float] reads "80" as
    [f80], the snapshot [{"curvals": {"quality": "80", "night_vision":
    "on"}}] gives [{"quality": f80, "night_vision": True}]. *)
Theorem current_settings_coerces (self : IPWebcam) (d : dict)
    (cv : list (string * string)) :
  float_of_str "on" = None ->
  float_of_str "off" = None ->
  status_data self = PDict d ->
  dict_lookup "curvals" d = Some (PDict (string_items cv)) ->
  NoDup (map fst cv) ->
  current_settings self = Ret (PDict (settings_view cv))
  /\ forall f80,
      float_of_str "80" = Some f80 ->
      cv = [("quality", "80"); ("night_vision", "on")] ->
      current_settings self
      = Ret (PDict [("quality", PFloat f80); ("night_vision", PBool true)]).
Proof.
  intros Hon Hoff Hst Hcv Hnd.
  assert (Hmain : current_settings self = Ret (PDict (settings_view cv))).
  { unfold current_settings. rewrite Hst. cbn [is_none negb py_get].
    rewrite Hcv. cbn [obind py_items].
    rewrite (settings_loop_strings cv Hon Hoff [] Hnd) by (intros k _ []).
    reflexivity. }
  split; [exact Hmain |].
  intros f80 H80 ->. rewrite Hmain.
  unfold settings_view, coerce_spec. cbn [map fst snd String.eqb Ascii.eqb].
  cbn. rewrite H80. reflexivity.
Qed.

(** An absent status snapshot gives no settings. *)
Lemma current_settings_absent (self : IPWebcam) :
  status_data self = PNone -> current_settings self = Ret PNone.
Proof.
  intros H. unfold current_settings. rewrite H. reflexivity.
Qed.

(** ** [update] *)

(** [update] runs its two fetches in order and stores each result. *)
Lemma update_run (G : namespace) (h h1 h2 : heap) (v w : pyval) :
  _request G "/status.json" CONTENT_JSON h = (Ret v, h1) ->
  _request G "/sensors.json" CONTENT_JSON (snd (set_status_data v h1)) = (Ret w, h2) ->
  update G h = (Ret PNone, snd (set_sensor_data w h2)).
Proof.
  intros H1 H2. unfold update, bind. rewrite H1.
  cbn [set_status_data snd] in H2 |- *. rewrite H2. reflexivity.
Qed.

(** A fetch whose [get] raises a transport error gives no result. *)
Lemma request_transport_failure (G : namespace) (auth : pyval)
    (path content : string) (h : heap) (e : exn) :
  g_auth G = Some auth ->
  websession (self h) (trace h ++ [EvTimeout (_timeout (self h))])
    (base_url (self h) ++ path)%string auth = Raise e ->
  transport_failure e = true ->
  _request G path content h
  = (Ret PNone,
     emit (EvLog ERROR "Failed to communicate with IP Webcam: %s")
       (emit (EvGet (base_url (self h) ++ path)%string auth)
          (emit (EvTimeout (_timeout (self h))) h))).
Proof.
  intros Hauth Hget He. unfold _request, fetch. rewrite Hauth.
  cbn [self trace emit]. rewrite Hget. rewrite He. reflexivity.
Qed.

(** Whatever the two snapshots held before, an [update] whose two
    fetches return [v] and [w] leaves [status_data] equal to [v] and
    [sensor_data] equal to [w]: each snapshot is overwritten with what its
    fetch returned.  When the fetches fail and return no result ([v] and [w]
    are [None]) both snapshots are absent afterwards. *)
Lemma update_overwrites_snapshots (G : namespace) (h h1 h2 : heap)
    (v w : pyval) :
  _request G "/status.json" CONTENT_JSON h = (Ret v, h1) ->
  _request G "/sensors.json" CONTENT_JSON (snd (set_status_data v h1)) = (Ret w, h2) ->
  status_data (self (snd (update G h))) = v
  /\ sensor_data (self (snd (update G h))) = w.
Proof.
  intros H1 H2. rewrite (update_run G h h1 h2 v w H1 H2).
  assert (Hself : self h2 = self (snd (set_status_data v h1))).
  { rewrite <- (request_self G "/sensors.json" CONTENT_JSON
                  (snd (set_status_data v h1))).
    rewrite H2. reflexivity. }
  cbn [set_sensor_data snd self status_data sensor_data].
  rewrite Hself. split; reflexivity.
Qed.

(** On a session whose every [get] raises a transport error, with [auth]
    resolving, [update] returns and leaves both snapshots absent. *)
Lemma update_transport_failure (G : namespace) (auth : pyval) (h : heap) :
  g_auth G = Some auth ->
  (forall t url, exists e,
      websession (self h) t url auth = Raise e /\ transport_failure e = true) ->
  fst (update G h) = Ret PNone
  /\ status_data (self (snd (update G h))) = PNone
  /\ sensor_data (self (snd (update G h))) = PNone.
Proof.
  intros Hauth Hdown.
  destruct (Hdown (trace h ++ [EvTimeout (_timeout (self h))])
              (base_url (self h) ++ "/status.json")%string) as [e1 [Hg1 He1]].
  pose proof (request_transport_failure G auth "/status.json" CONTENT_JSON h e1
                Hauth Hg1 He1) as H1.
  set (h1 := emit (EvLog ERROR "Failed to communicate with IP Webcam: %s")
               (emit (EvGet (base_url (self h) ++ "/status.json")%string auth)
                  (emit (EvTimeout (_timeout (self h))) h))) in H1.
  set (h1' := snd (set_status_data PNone h1)).
  destruct (Hdown (trace h1' ++ [EvTimeout (_timeout (self h1'))])
              (base_url (self h1') ++ "/sensors.json")%string) as [e2 [Hg2 He2]].
  pose proof (request_transport_failure G auth "/sensors.json" CONTENT_JSON h1' e2
                Hauth Hg2 He2) as H2.
  rewrite (update_run G h h1 _ PNone PNone H1 H2).
  split; [reflexivity | split; reflexivity].
Qed.

(** ** More on [_request] *)

(** The second [try] of [_request], on the data the first one left. *)
Lemma xml_test_is_constant : (CONTENT_XML =? "xml")%string = true.
Proof. reflexivity. Qed.

(** X1.  With [auth] resolving and [release()] succeeding, a response whose
    status is not 200, or a hint that is neither xml nor json, makes
    [_request] read no body at all: it awaits [get], then [release], logs an
    invalid response and returns no result. *)
Theorem request_body_not_read (G : namespace) (auth : pyval)
    (path content : string) (h : heap) (r : ClientResponse) :
  g_auth G = Some auth ->
  websession (self h) (trace h ++ [EvTimeout (_timeout (self h))])
    (base_url (self h) ++ path)%string auth = Ret r ->
  release r = None ->
  status r <> 200 \/ (content <> CONTENT_XML /\ content <> CONTENT_JSON) ->
  _request G path content h
  = (Ret PNone,
     {| self := self h;
        trace := trace h ++ [EvTimeout (_timeout (self h));
                             EvGet (base_url (self h) ++ path)%string auth;
                             EvRelease;
                             EvLog ERROR "Received invalid response: %s"] |}).
Proof.
  intros Hauth Hget Hrel Hskip. unfold _request, fetch. rewrite Hauth.
  cbn [self trace emit]. rewrite Hget.
  destruct (Z.eqb_spec (status r) 200) as [H200 | H200];
    [ destruct Hskip as [Hst | [Hx Hj]]; [contradiction |];
      destruct (String.eqb_spec content CONTENT_XML); [contradiction |];
      destruct (String.eqb_spec content CONTENT_JSON); [contradiction |] | ];
    cbn [response data]; rewrite Hrel; unfold emit;
    cbn -[String.append base_url]; repeat rewrite <- app_assoc; reflexivity.
Qed.


(** X2.  With [auth] resolving, a [get] that raises leaves nothing to
    release and no body to read.  When the exception is a timeout, a client
    error or a disconnect, [_request] logs it and returns no result; any
    other exception leaves [_request] as it is, unlogged. *)
Theorem request_get_raises (G : namespace) (auth : pyval)
    (path content : string) (h : heap) (e : exn) :
  g_auth G = Some auth ->
  websession (self h) (trace h ++ [EvTimeout (_timeout (self h))])
    (base_url (self h) ++ path)%string auth = Raise e ->
  _request G path content h
  = if transport_failure e
    then (Ret PNone,
          {| self := self h;
             trace := trace h ++ [EvTimeout (_timeout (self h));
                                  EvGet (base_url (self h) ++ path)%string auth;
                                  EvLog ERROR "Failed to communicate with IP Webcam: %s"] |})
    else (Raise e,
          {| self := self h;
             trace := trace h ++ [EvTimeout (_timeout (self h));
                                  EvGet (base_url (self h) ++ path)%string auth] |}).
Proof.
  intros Hauth Hget. unfold _request, fetch. rewrite Hauth.
  cbn [self trace emit]. rewrite Hget.
  destruct (transport_failure e); unfold emit; cbn [self trace response];
    repeat rewrite <- app_assoc; reflexivity.
Qed.

(** X3.  With [auth] resolving, a 200 response to a fetch with the markup
    hint whose text is [s] and whose release succeeds: [_request] returns the
    tree [ET.fromstring(s)] when [s] is well formed, and otherwise logs an
    invalid response and returns no result; either way it has read the text
    once and then released the response. *)
Theorem request_markup_result (G : namespace) (auth : pyval) (path : string)
    (h : heap) (r : ClientResponse) (s : string) :
  g_auth G = Some auth ->
  websession (self h) (trace h ++ [EvTimeout (_timeout (self h))])
    (base_url (self h) ++ path)%string auth = Ret r ->
  status r = 200 ->
  text r = Ret s ->
  release r = None ->
  fst (_request G path CONTENT_XML h)
  = match ET_fromstring s with
    | Some e => Ret (PElement e)
    | None => Ret PNone
    end
  /\ trace (snd (_request G path CONTENT_XML h))
     = trace h ++ [EvTimeout (_timeout (self h));
                   EvGet (base_url (self h) ++ path)%string auth;
                   EvText; EvRelease]
               ++ match ET_fromstring s with
                  | Some _ => []
                  | None => [EvLog ERROR "Received invalid response: %s"]
                  end.
Proof.
  intros Hauth Hget H200 Htext Hrel. unfold _request, fetch. rewrite Hauth.
  cbn [self trace emit]. rewrite Hget, H200, Htext.
  cbn [Z.eqb Pos.eqb String.eqb Ascii.eqb Bool.eqb CONTENT_XML response data].
  rewrite Hrel. unfold emit. cbn [self trace py_fromstring PStr].
  destruct (ET_fromstring s) as [e |]; cbn [fst snd trace invalid_response self];
    repeat rewrite <- app_assoc; split; reflexivity.
Qed.

(** X4.  Whatever the namespace, the object, the session, the path and the
    hint, when [_request] returns a value that value is [None] or a markup
    tree: it never returns a JSON object, array, number, boolean or
    string. *)
Theorem request_result_shape (G : namespace) (path content : string)
    (h : heap) (v : pyval) :
  fst (_request G path content h) = Ret v ->
  v = PNone \/ exists e, v = PElement e.
Proof.
  unfold _request, fetch. rewrite xml_test_is_constant.
  unfold py_fromstring. cbn [self trace emit].
  repeat (split_case; cbn [self trace emit fst snd response data]);
    intros Hv; try discriminate Hv; injection Hv as <-;
    first [left; reflexivity | right; eexists; reflexivity].
Qed.

(** X5.  With [auth] resolving, once [get] has returned a response whose
    [release()] raises, that exception is what leaves [_request], whatever
    the status, the hint and the body were, and whatever class it has: the
    release runs in the [finally] clause, outside both handlers. *)
Theorem request_release_failure (G : namespace) (auth : pyval)
    (path content : string) (h : heap) (r : ClientResponse) (e : exn) :
  g_auth G = Some auth ->
  websession (self h) (trace h ++ [EvTimeout (_timeout (self h))])
    (base_url (self h) ++ path)%string auth = Ret r ->
  release r = Some e ->
  fst (_request G path content h) = Raise e.
Proof.
  intros Hauth Hget Hrel. unfold _request, fetch. rewrite Hauth.
  cbn [self trace emit]. rewrite Hget.
  repeat (split_case; cbn [self trace emit fst snd response data] in * );
    try reflexivity; congruence.
Qed.

(** X6.  In what any call of [_request] adds to the trace, nothing but log
    lines follows the release: the response is never read, and no request is
    made, after the response has been released. *)
Theorem request_quiet_after_release (G : namespace) (path content : string)
    (h : heap) :
  exists new,
    trace (snd (_request G path content h)) = trace h ++ new
    /\ quiet_after_release new = true.
Proof.
  run_request; cbn [snd trace emit self];
    repeat rewrite <- app_assoc; cbn [app]; eexists; split; reflexivity.
Qed.

(** X7.  The user name, the password and the timeout given to the
    constructor have no effect on a fetch: two objects built with the same
    session, host and port give the same result and the same trace. *)
Theorem request_ignores_constructor_options (lp : handle) (s : session)
    (host port u1 p1 t1 u2 p2 t2 : atom) (G : namespace)
    (path content : string) (t : list event) :
  let h1 := {| self := __init__ lp s host port u1 p1 t1; trace := t |} in
  let h2 := {| self := __init__ lp s host port u2 p2 t2; trace := t |} in
  fst (_request G path content h1) = fst (_request G path content h2)
  /\ trace (snd (_request G path content h1))
     = trace (snd (_request G path content h2)).
Proof.
  cbv zeta. unfold _request, fetch, base_url, __init__.
  cbn [self trace emit _host _port _timeout websession].
  repeat (split_case; cbn [self trace emit fst snd response data]);
    split; reflexivity.
Qed.

(** ** More on [update] *)

(** The requests [_request] makes when [auth] resolves: exactly one. *)
Lemma request_get_events (G : namespace) (auth : pyval) (path content : string)
    (h : heap) :
  g_auth G = Some auth ->
  exists new,
    trace (snd (_request G path content h)) = trace h ++ new
    /\ filter is_get new = [EvGet (base_url (self h) ++ path)%string auth].
Proof.
  intros Hauth. unfold _request, fetch. rewrite Hauth. cbn [self trace emit].
  repeat (split_case; cbn [self trace emit fst snd response data]);
    repeat rewrite <- app_assoc; cbn [app]; eexists; split; reflexivity.
Qed.

(** A value [_request] returns is [None] or a markup tree. *)
Lemma request_value (G : namespace) (path content : string) (h h' : heap)
    (v : pyval) :
  _request G path content h = (Ret v, h') ->
  is_none v || is_element v = true.
Proof.
  unfold _request, fetch. rewrite xml_test_is_constant.
  unfold py_fromstring, PNone, PStr. cbn [self trace emit].
  repeat (split_case; cbn [self trace emit fst snd response data]);
    intros Hv; try discriminate Hv; injection Hv as <- _; reflexivity.
Qed.

(** An [update] that returns has had both fetches return. *)
Lemma update_returns (G : namespace) (h : heap) (x : pyval) :
  fst (update G h) = Ret x ->
  exists v w h1 h2,
    _request G "/status.json" CONTENT_JSON h = (Ret v, h1)
    /\ _request G "/sensors.json" CONTENT_JSON (snd (set_status_data v h1))
       = (Ret w, h2)
    /\ update G h = (Ret PNone, snd (set_sensor_data w h2)).
Proof.
  unfold update, bind.
  destruct (_request G "/status.json" CONTENT_JSON h) as [[v | e] h1] eqn:E1;
    [| discriminate].
  cbn [set_status_data snd].
  match goal with
  | |- context [_request G "/sensors.json" CONTENT_JSON ?y] => set (h1' := y)
  end.
  destruct (_request G "/sensors.json" CONTENT_JSON h1') as [[w | e] h2] eqn:E2;
    [| discriminate].
  intros _. exists v, w, h1, h2.
  split; [reflexivity | split; [exact E2 | reflexivity]].
Qed.

(** X8.  When the first fetch of [update] raises, [update] raises the same
    exception at once: the sensors fetch is not attempted (the heap is the
    one the first fetch left) and both snapshots are as they were. *)
Theorem update_first_fetch_raises (G : namespace) (h h1 : heap) (e : exn) :
  _request G "/status.json" CONTENT_JSON h = (Raise e, h1) ->
  update G h = (Raise e, h1)
  /\ status_data (self h1) = status_data (self h)
  /\ sensor_data (self h1) = sensor_data (self h).
Proof.
  intros H1. split.
  - unfold update, bind. rewrite H1. reflexivity.
  - pose proof (request_self G "/status.json" CONTENT_JSON h) as Hs.
    rewrite H1 in Hs. cbn [snd] in Hs. rewrite Hs. split; reflexivity.
Qed.

(** X9.  When the first fetch of [update] returns [v] and the second
    raises, [update] raises that exception with the status snapshot already
    overwritten by [v] and the sensor snapshot as it was: the two snapshots
    are not updated together. *)
Theorem update_second_fetch_raises (G : namespace) (h h1 h2 : heap)
    (v : pyval) (e : exn) :
  _request G "/status.json" CONTENT_JSON h = (Ret v, h1) ->
  _request G "/sensors.json" CONTENT_JSON (snd (set_status_data v h1))
  = (Raise e, h2) ->
  fst (update G h) = Raise e
  /\ status_data (self (snd (update G h))) = v
  /\ sensor_data (self (snd (update G h))) = sensor_data (self h).
Proof.
  intros H1 H2.
  pose proof (request_self G "/status.json" CONTENT_JSON h) as Hs1.
  rewrite H1 in Hs1. cbn [snd] in Hs1.
  pose proof (request_self G "/sensors.json" CONTENT_JSON
                (snd (set_status_data v h1))) as Hs2.
  rewrite H2 in Hs2. cbn [snd] in Hs2.
  unfold update, bind. rewrite H1.
  cbn [set_status_data snd] in H2, Hs2 |- *. rewrite H2. cbn [fst snd].
  rewrite Hs2. cbn [self status_data sensor_data]. rewrite Hs1.
  repeat split; reflexivity.
Qed.

(** X10.  [update] assigns the two snapshots and no other field: the loop,
    the session, the host, the port, the credentials and the timeout field
    are after it what they were before, whether it returns or raises; so the
    base URL and the video and snapshot URLs are unchanged too. *)
Theorem update_keeps_configuration (G : namespace) (h : heap) :
  same_configuration (self h) (self (snd (update G h)))
  /\ base_url (self (snd (update G h))) = base_url (self h)
  /\ mjpeg_url (self (snd (update G h))) = mjpeg_url (self h)
  /\ image_url (self (snd (update G h))) = image_url (self h).
Proof.
  assert (Hcfg : same_configuration (self h) (self (snd (update G h)))).
  { unfold same_configuration, update, bind.
    pose proof (request_self G "/status.json" CONTENT_JSON h) as H1.
    destruct (_request G "/status.json" CONTENT_JSON h) as [[v | e] h1];
      cbn [snd] in H1 |- *; [| rewrite H1; repeat split; reflexivity].
    cbn [set_status_data].
    match goal with
    | |- context [_request G "/sensors.json" CONTENT_JSON ?x] => set (h1' := x)
    end.
    pose proof (request_self G "/sensors.json" CONTENT_JSON h1') as H2.
    destruct (_request G "/sensors.json" CONTENT_JSON h1') as [[w | e] h2];
      cbn [snd set_sensor_data ret self] in H2 |- *;
      cbn [loop websession _host _port _auth _timeout];
      rewrite H2; subst h1';
      cbn [self loop websession _host _port _auth _timeout];
      rewrite H1; repeat split; reflexivity. }
  split; [exact Hcfg |].
  destruct Hcfg as [_ [_ [Hhost [Hport _]]]].
  unfold mjpeg_url, image_url, base_url. rewrite Hhost, Hport.
  repeat split; reflexivity.
Qed.

(** X11.  With [auth] resolving, [update] makes its requests once each and
    in order: one [get] of [/status.json] and, when that fetch returned, one
    [get] of [/sensors.json], both under the base URL; it never repeats a
    request. *)
Theorem update_requests (G : namespace) (auth : pyval) (h : heap) :
  g_auth G = Some auth ->
  exists new,
    trace (snd (update G h)) = trace h ++ new
    /\ filter is_get new
       = EvGet (base_url (self h) ++ "/status.json")%string auth
         :: match fst (_request G "/status.json" CONTENT_JSON h) with
            | Ret _ => [EvGet (base_url (self h) ++ "/sensors.json")%string auth]
            | Raise _ => []
            end.
Proof.
  intros Hauth. unfold update, bind.
  destruct (request_get_events G auth "/status.json" CONTENT_JSON h Hauth)
    as [new1 [Ht1 Hg1]].
  pose proof (request_self G "/status.json" CONTENT_JSON h) as Hs1.
  destruct (_request G "/status.json" CONTENT_JSON h) as [[v | e] h1];
    cbn [fst snd] in Ht1, Hs1 |- *.
  - cbn [set_status_data].
    match goal with
    | |- context [_request G "/sensors.json" CONTENT_JSON ?x] => set (h1' := x)
    end.
    destruct (request_get_events G auth "/sensors.json" CONTENT_JSON h1' Hauth)
      as [new2 [Ht2 Hg2]].
    assert (Hbase : base_url (self h1') = base_url (self h)).
    { subst h1'. unfold base_url. cbn [self _host _port]. rewrite Hs1.
      reflexivity. }
    rewrite Hbase in Hg2.
    assert (Htr : trace h1' = trace h ++ new1) by (subst h1'; exact Ht1).
    exists (new1 ++ new2). split.
    + destruct (_request G "/sensors.json" CONTENT_JSON h1') as [[w | e] h2];
        cbn [snd set_sensor_data ret trace] in Ht2 |- *;
        rewrite Ht2, Htr, app_assoc; reflexivity.
    + rewrite filter_app, Hg1, Hg2. reflexivity.
  - exists new1. split; [exact Ht1 | exact Hg1].
Qed.

(** ** The snapshots after [update], and what the properties make of them *)

Lemma attrib_lookup_is_string (e : element) (k : string) (v : pyval) :
  dict_lookup k (attrib_items e) = Some v -> exists s, v = PStr s.
Proof.
  unfold attrib_items.
  induction (element_attrib e) as [| [k' s'] l IH]; cbn [map dict_lookup fst snd].
  - discriminate.
  - destruct (k' =? k)%string.
    + intros Hv. injection Hv as <-. exists s'. reflexivity.
    + exact IH.
Qed.

(** X12.  After an [update] that returns, each snapshot is [None] or a
    markup tree, never a JSON mapping.  So [current_settings] then gives
    [None], gives the empty dictionary, or raises [AttributeError]; and
    [enabled_sensors] then raises [AttributeError] or lists the attribute
    names of the root of the tree. *)
Theorem update_then_views (G : namespace) (h : heap) (x : pyval) :
  fst (update G h) = Ret x ->
  let o := self (snd (update G h)) in
  (is_none (status_data o) || is_element (status_data o) = true)
  /\ (is_none (sensor_data o) || is_element (sensor_data o) = true)
  /\ (current_settings o = Ret PNone
      \/ current_settings o = Ret (PDict [])
      \/ current_settings o = Raise AttributeError)
  /\ (enabled_sensors o = Raise AttributeError
      \/ exists e,
          sensor_data o = PElement e
          /\ enabled_sensors o
             = Ret (PList (map PStr (map fst (element_attrib e))))).
Proof.
  intros Hret. cbv zeta.
  destruct (update_returns G h x Hret) as [v [w [h1 [h2 [H1 [H2 Hup]]]]]].
  pose proof (request_value G _ _ _ _ v H1) as Hv.
  pose proof (request_value G _ _ _ _ w H2) as Hw.
  pose proof (request_self G "/sensors.json" CONTENT_JSON
                (snd (set_status_data v h1))) as Hs2.
  rewrite H2 in Hs2. cbn [snd set_status_data self] in Hs2.
  rewrite Hup. cbn [snd set_sensor_data self status_data sensor_data].
  rewrite Hs2. cbn [status_data].
  split; [exact Hv | split; [exact Hw | split]].
  - unfold current_settings. cbn [status_data].
    destruct v as [[| b | z | f | s] | l | d | e]; try discriminate Hv.
    + left. reflexivity.
    + right. cbn [is_none negb py_get obind].
      destruct (dict_lookup "curvals" (attrib_items e)) as [cv |] eqn:Hcv.
      * destruct (attrib_lookup_is_string e "curvals" cv Hcv) as [s ->].
        right. reflexivity.
      * left. reflexivity.
  - unfold enabled_sensors. cbn [sensor_data].
    destruct w as [[| b | z | f | s] | l | d | e]; try discriminate Hw.
    + left. reflexivity.
    + right. exists e. split; [reflexivity |].
      cbn [py_keys obind]. unfold dict_keys, attrib_items.
      rewrite !map_map. cbn [fst]. reflexivity.
Qed.

(** ** More on [current_settings] *)

(** A turn of the loop that returns has stored a float, a boolean or a
    string under the item's key. *)
Lemma settings_step_stores (acc acc' : dict) (k : string) (v : pyval) :
  settings_step acc (k, v) = Ret acc' ->
  exists v', is_setting_value v' = true /\ acc' = dict_set k v' acc.
Proof.
  unfold settings_step.
  destruct (py_float v) as [f | e] eqn:Hf.
  - cbn. intros H. injection H as <-. exists (PFloat f). split; reflexivity.
  - destruct e; cbn [obind]; try discriminate.
    assert (Hs : exists s, v = PStr s).
    { destruct v as [[| b | z | f | s] | l | d | el]; cbn in Hf;
        try discriminate Hf.
      - destruct (float_of_int (if b then 1 else 0)); discriminate Hf.
      - destruct (float_of_int z); discriminate Hf.
      - exists s. reflexivity. }
    destruct Hs as [s ->]. intros H. injection H as <-.
    unfold PStr. cbn [eq_str].
    destruct ((s =? "on")%string || (s =? "off")%string);
      eexists; (split; [| reflexivity]); reflexivity.
Qed.

Lemma dict_set_values (P : pyval -> bool) (k : string) (v : pyval) (d : dict) :
  P v = true ->
  forallb (fun kv => P (snd kv)) d = true ->
  forallb (fun kv => P (snd kv)) (dict_set k v d) = true.
Proof.
  intros Hv. induction d as [| [k' v'] d IH]; cbn [dict_set forallb snd].
  - intros _. rewrite Hv. reflexivity.
  - intros H. apply andb_true_iff in H. destruct H as [Hh Ht].
    destruct (k' =? k)%string; cbn [forallb snd].
    + rewrite Hv, Ht. reflexivity.
    + rewrite Hh, (IH Ht). reflexivity.
Qed.

Lemma dict_set_keys (k : string) (v : pyval) (d : dict) (k0 : string) :
  In k0 (dict_keys (dict_set k v d)) <-> k0 = k \/ In k0 (dict_keys d).
Proof.
  induction d as [| [k' v'] d IH]; cbn [dict_set dict_keys map fst In].
  - split; [intros [<- | []]; left; reflexivity | intros [-> | []]; left; reflexivity].
  - destruct (String.eqb_spec k' k) as [-> | Hne]; cbn [dict_keys map fst In].
    + split; [intros [<- | H]; [left; reflexivity | right; right; exact H]
             | intros [-> | [<- | H]]; [left; reflexivity | left; reflexivity
                                        | right; exact H]].
    + unfold dict_keys in IH. rewrite IH.
      split; [intros [<- | [-> | H]]; [right; left; reflexivity | left; reflexivity
                                       | right; right; exact H]
             | intros [-> | [<- | H]]; [right; left; reflexivity | left; reflexivity
                                        | right; right; exact H]].
Qed.

Lemma settings_loop_invariant (items : dict) :
  forall acc s,
    settings_loop items acc = Ret s ->
    (forallb (fun kv => is_setting_value (snd kv)) acc = true ->
     forallb (fun kv => is_setting_value (snd kv)) s = true)
    /\ forall k, In k (dict_keys s) <-> In k (dict_keys acc) \/ In k (dict_keys items).
Proof.
  induction items as [| [k v] items IH]; intros acc s; cbn [settings_loop].
  - intros H. injection H as <-. split; [auto |].
    intros k0. cbn. tauto.
  - destruct (settings_step acc (k, v)) as [acc' | e] eqn:Hstep;
      cbn [obind]; [| discriminate].
    intros Hloop.
    destruct (settings_step_stores acc acc' k v Hstep) as [v' [Hv' ->]].
    destruct (IH _ _ Hloop) as [Hvals Hkeys]. split.
    + intros Hacc. apply Hvals. apply dict_set_values; assumption.
    + intros k0. rewrite Hkeys, dict_set_keys. cbn [dict_keys map fst In].
      unfold dict_keys. intuition (subst; auto).
Qed.

(** X13.  Whenever [current_settings] returns a dictionary, every value in
    it is a float, a boolean or a string, whatever kinds of value the
    snapshot held. *)
Theorem current_settings_value_kinds (self : IPWebcam) (s : dict) :
  current_settings self = Ret (PDict s) ->
  forall k v, In (k, v) s -> is_setting_value v = true.
Proof.
  unfold current_settings.
  destruct (negb (is_none (status_data self))); [| discriminate].
  destruct (py_get (status_data self) "curvals" (PDict [])) as [cv | e];
    cbn [obind]; [| discriminate].
  destruct (py_items cv) as [items | e]; cbn [obind]; [| discriminate].
  destruct (settings_loop items []) as [s' | e] eqn:Hloop; cbn [obind];
    [| discriminate].
  intros H. injection H as <-.
  destruct (settings_loop_invariant items [] s' Hloop) as [Hvals _].
  specialize (Hvals eq_refl). rewrite forallb_forall in Hvals.
  intros k v Hin. exact (Hvals (k, v) Hin).
Qed.

(** X14.  On a status snapshot that is a mapping with a [curvals] mapping,
    when [current_settings] returns, its result has exactly the keys of
    [curvals]: no setting is dropped and none is invented. *)
Theorem current_settings_keys (self : IPWebcam) (d items s : dict) :
  status_data self = PDict d ->
  dict_lookup "curvals" d = Some (PDict items) ->
  current_settings self = Ret (PDict s) ->
  forall k, In k (dict_keys s) <-> In k (dict_keys items).
Proof.
  intros Hst Hcv. unfold current_settings. rewrite Hst.
  cbn [is_none negb py_get]. rewrite Hcv. cbn [obind py_items].
  destruct (settings_loop items []) as [s' | e] eqn:Hloop; cbn [obind];
    [| discriminate].
  intros H. injection H as <-.
  destruct (settings_loop_invariant items [] s' Hloop) as [_ Hkeys].
  intros k. rewrite Hkeys. cbn. tauto.
Qed.

Lemma settings_step_returns (acc : dict) (k : string) (v : pyval) :
  (exists f, py_float v = Ret f) \/ py_float v = Raise ValueError ->
  exists acc', settings_step acc (k, v) = Ret acc'.
Proof.
  unfold settings_step. intros [[f Hf] | Hf]; rewrite Hf; cbn [obind];
    eexists; reflexivity.
Qed.

Lemma py_float_raises (v : pyval) (e : exn) :
  py_float v = Raise e -> e = ValueError \/ e = TypeError \/ e = OverflowError.
Proof.
  destruct v as [[| b | z | f | s] | l | d | el]; cbn [py_float];
    try (intros H; injection H as <-; auto; fail).
  - destruct (float_of_int (if b then 1 else 0)); intros H;
      [discriminate | injection H as <-; auto].
  - destruct (float_of_int z); intros H;
      [discriminate | injection H as <-; auto].
  - discriminate.
  - destruct (float_of_str s); intros H;
      [discriminate | injection H as <-; auto].
Qed.

Lemma settings_loop_raises (items : dict) :
  forall acc,
    (exists k v e, In (k, v) items /\ py_float v = Raise e /\ e <> ValueError) ->
    settings_loop items acc = Raise TypeError
    \/ settings_loop items acc = Raise OverflowError.
Proof.
  induction items as [| [k0 v0] items IH]; intros acc [k [v [e [Hin [Hf He]]]]].
  - destruct Hin.
  - cbn [settings_loop].
    destruct (py_float v0) as [f0 | e0] eqn:Hf0.
    + destruct (settings_step_returns acc k0 v0) as [acc' Hstep];
        [left; exists f0; exact Hf0 |].
      rewrite Hstep. cbn [obind]. apply IH.
      destruct Hin as [Heq | Hin]; [| exists k, v, e; auto].
      injection Heq as -> ->. rewrite Hf in Hf0. discriminate.
    + destruct (py_float_raises v0 e0 Hf0) as [-> | [-> | ->]].
      * destruct (settings_step_returns acc k0 v0) as [acc' Hstep];
          [right; exact Hf0 |].
        rewrite Hstep. cbn [obind]. apply IH.
        destruct Hin as [Heq | Hin]; [| exists k, v, e; auto].
        injection Heq as -> ->. rewrite Hf in Hf0. congruence.
      * left. unfold settings_step. rewrite Hf0. reflexivity.
      * right. unfold settings_step. rewrite Hf0. reflexivity.
Qed.

(** X15.  On a status snapshot that is a mapping with a [curvals] mapping,
    one value that [float] refuses with anything but [ValueError] (a null,
    an array, an object: [TypeError]; an integer too large:
    [OverflowError]) makes [current_settings] raise that kind of exception
    instead of returning any settings. *)
Theorem current_settings_bad_value (self : IPWebcam) (d items : dict)
    (k : string) (v : pyval) (e : exn) :
  status_data self = PDict d ->
  dict_lookup "curvals" d = Some (PDict items) ->
  In (k, v) items ->
  py_float v = Raise e ->
  e <> ValueError ->
  current_settings self = Raise TypeError
  \/ current_settings self = Raise OverflowError.
Proof.
  intros Hst Hcv Hin Hf He. unfold current_settings. rewrite Hst.
  cbn [is_none negb py_get]. rewrite Hcv. cbn [obind py_items].
  destruct (settings_loop_raises items []) as [H | H];
    [exists k, v, e; auto | |]; rewrite H; [left | right]; reflexivity.
Qed.

(** ** The operations in the module's own namespace *)

(** X16.  As the module stands ([auth] unbound), [update] and the
    coroutine of every operation raise [NameError] as soon as they are
    driven, having made no request: the only thing added to the trace is the
    entry into the bounded wait. *)
Theorem module_operations_never_fetch (h : heap) :
  update module_namespace h
  = (Raise (NameError "auth"), emit (EvTimeout (_timeout (self h))) h)
  /\ forall m c h2,
      fst (call module_namespace m h) = Ret (Coroutine c) ->
      c h2 = (Raise (NameError "auth"), emit (EvTimeout (_timeout (self h2))) h2).
Proof.
  split; [reflexivity |].
  intros m c h2 Hc.
  destruct (call_returns_request module_namespace m h c Hc)
    as [path [content ->]].
  reflexivity.
Qed.

(** X17.  Calling an operation raises only in one case: [record] asked to
    start with a tag, where the call reads [quote]; it raises [NameError]
    when that name is unbound and otherwise whatever [quote] raises.  Every
    other call returns, and a call that raises leaves the heap as it
    was. *)
Theorem call_raises_only_for_tagged_record (G : namespace) (m : mutator)
    (h : heap) (e : exn) :
  (fst (call G m h) = Raise e
   <-> exists r tag,
        m = Record_ r tag /\ truthy r = true /\ tag <> ANone
        /\ match g_quote G with
           | None => e = NameError "quote"
           | Some quote => quote tag = Raise e
           end)
  /\ (fst (call G m h) = Raise e -> snd (call G m h) = h).
Proof.
  split.
  - split.
    + destruct m as [key val | a | a | r tag | a | a | a | a | q | o | z];
        cbn [call ret fst]; try discriminate.
      * unfold record. intros H.
        destruct (truthy r) eqn:Hr; cbn [andb] in H; [| discriminate].
        destruct tag as [| b | z | f | s]; cbn [is_none negb] in H;
          try discriminate;
          (exists r; eexists; split; [reflexivity |]; split; [exact Hr |];
           split; [discriminate |]);
          destruct (g_quote G) as [quote |]; cbn [obind] in H;
          try (injection H as <-; reflexivity);
          match type of H with
          | context [quote ?t] => destruct (quote t) eqn:Hq; cbn [obind] in H
          end;
          try discriminate; injection H as <-; reflexivity.
      * unfold set_orientation.
        destruct (negb (existsb (eq_str (PAtom o)) ALLOWED_ORIENTATIONS));
          discriminate.
    + intros [r [tag [-> [Hr [Htag Hq]]]]]. cbn [call fst]. unfold record.
      rewrite Hr. destruct tag as [| b | z | f | s]; try contradiction;
        cbn [is_none negb andb];
        destruct (g_quote G) as [quote |]; cbn [obind];
        try (rewrite Hq; reflexivity); subst e; reflexivity.
  - destruct m as [key val | a | a | r tag | a | a | a | a | q | o | z];
      cbn [call ret fst snd]; try discriminate.
    + destruct (record G r tag); reflexivity.
    + unfold set_orientation.
      destruct (negb (existsb (eq_str (PAtom o)) ALLOWED_ORIENTATIONS));
        discriminate.
Qed.

(** X18.  With [auth] resolving, the coroutine an operation returns makes
    exactly one request when it is driven, a [get] of a path under the base
    URL of the object it is driven on. *)
Theorem operation_makes_one_request (G : namespace) (auth : pyval)
    (m : mutator) (h h2 : heap) (c : M pyval) :
  g_auth G = Some auth ->
  fst (call G m h) = Ret (Coroutine c) ->
  exists path new,
    trace (snd (c h2)) = trace h2 ++ new
    /\ filter is_get new = [EvGet (base_url (self h2) ++ path)%string auth].
Proof.
  intros Hauth Hc.
  destruct (call_returns_request G m h c Hc) as [path [content ->]].
  destruct (request_get_events G auth path content h2 Hauth) as [new Hnew].
  exists path, new. exact Hnew.
Qed.

(** X19.  Every absent result of [_request] is logged: when the call
    returns [None] it has written exactly one error line, and when it
    returns a tree it has written none. *)
Theorem request_absent_is_logged (G : namespace) (path content : string)
    (h : heap) :
  exists new,
    trace (snd (_request G path content h)) = trace h ++ new
    /\ match fst (_request G path content h) with
       | Ret v => length (filter is_log new) = if is_none v then 1%nat else 0%nat
       | Raise _ => True
       end.
Proof.
  unfold _request, fetch. rewrite xml_test_is_constant.
  unfold py_fromstring, PNone, PStr. cbn [self trace emit].
  repeat (split_case; cbn [self trace emit fst snd response data is_none]);
    repeat rewrite <- app_assoc; cbn [app]; eexists; split;
    first [reflexivity | exact I].
Qed.

(** ** The operations' requests in the module's own namespace *)

(** C5 (the code departs from it).  The claim: [set_orientation] issues the
    change-setting request for the four listed values and, for any other
    value, issues no request and returns [False].  The code does the second
    half: a value outside the list gets [False], no [get] and an untouched
    object, in every namespace.  It does not do the first: for each of the
    four values the call returns a coroutine which, driven in the module's
    own namespace, raises [NameError] on the unbound name [auth] having made
    no [get].  Only where [auth] is bound does driving it make the request,
    one [get] of [/settings/orientation?set=] followed by the value, under
    the base URL. *)
Theorem set_orientation_request_never_sent (h h2 : heap) :
  (forall s,
      In s ["landscape"; "upsidedown"; "portrait"; "upsidedown_portrait"] ->
      exists c,
        set_orientation module_namespace (AStr s) h = (Ret (Coroutine c), h)
        /\ c h2 = (Raise (NameError "auth"),
                   emit (EvTimeout (_timeout (self h2))) h2)
        /\ gets (trace (snd (c h2))) = gets (trace h2))
  /\ (forall G auth s,
        g_auth G = Some auth ->
        In s ["landscape"; "upsidedown"; "portrait"; "upsidedown_portrait"] ->
        exists c rest,
          set_orientation G (AStr s) h = (Ret (Coroutine c), h)
          /\ trace (snd (c h2))
             = trace h2 ++ EvTimeout (_timeout (self h2))
                        :: EvGet (base_url (self h2)
                                  ++ "/settings/orientation?set=" ++ s)%string auth
                        :: rest
          /\ gets rest = 0%nat)
  /\ (forall G o,
        (forall s,
            In s ["landscape"; "upsidedown"; "portrait"; "upsidedown_portrait"] ->
            o <> AStr s) ->
        fst (set_orientation G o h) = Ret (Value (PBool false))
        /\ gets (trace (snd (set_orientation G o h))) = gets (trace h)
        /\ self (snd (set_orientation G o h)) = self h).
Proof.
  split; [| split].
  - intros s Hs.
    destruct (proj1 (set_orientation_allow_list module_namespace h) s Hs)
      as [Hcall Hreq].
    exists (change_setting module_namespace (AStr "orientation") (AStr s)).
    split; [exact Hcall |]. rewrite Hreq.
    split; [reflexivity |].
    change (gets (trace (emit (EvTimeout (_timeout (self h2))) h2))
            = gets (trace h2)).
    cbn [emit trace]. rewrite gets_app. cbn. lia.
  - intros G auth s Hauth Hs.
    destruct (proj1 (set_orientation_allow_list G h) s Hs) as [Hcall Hreq].
    destruct (request_gets_url G auth ("/settings/orientation?set=" ++ s)%string
                CONTENT_XML h2 Hauth) as [rest [Htrace Hgets]].
    exists (change_setting G (AStr "orientation") (AStr s)), rest.
    split; [exact Hcall |]. rewrite Hreq.
    split; [exact Htrace | exact Hgets].
  - intros G o Ho.
    exact (proj2 (set_orientation_allow_list G h) o Ho).
Qed.

(** C6 (the code departs from it).  The claim: [change_setting] issues a
    request whose query string encodes [set=on] for [True], [set=off] for
    [False] and the value itself otherwise.  The code builds that path, but
    in the module's own namespace the coroutine it returns raises
    [NameError] on the unbound name [auth] as soon as it is driven, for
    every key and value, having made no request.  Where [auth] is bound the
    request is made as claimed: one [get] of [/settings/{key}?set={payload}]
    under the base URL; on a camera at 192.168.1.20:8080 that is
    [set=on] for [True], [set=off] for [False], [set=80] for the integer 80
    and [set=portrait] for the string portrait. *)
Theorem change_setting_request_never_sent (key val : atom) (h : heap) :
  change_setting module_namespace key val h
  = (Raise (NameError "auth"), emit (EvTimeout (_timeout (self h))) h)
  /\ gets (trace (snd (change_setting module_namespace key val h)))
     = gets (trace h)
  /\ (forall G auth,
        g_auth G = Some auth ->
        exists rest,
          trace (snd (change_setting G key val h))
          = trace h ++ EvTimeout (_timeout (self h))
                    :: EvGet (base_url (self h) ++ "/settings/" ++ fmt key
                              ++ "?set=" ++ match val with
                                            | ABool true => "on"
                                            | ABool false => "off"
                                            | _ => fmt val
                                            end)%string auth
                    :: rest
          /\ gets rest = 0%nat)
  /\ (forall auth,
        trace (snd (change_setting (with_auth auth) (AStr "night_vision")
                      (ABool true) (fresh (camera unreachable))))
        = [EvTimeout ANone;
           EvGet "http://192.168.1.20:8080/settings/night_vision?set=on" auth;
           EvLog ERROR "Failed to communicate with IP Webcam: %s"]
        /\ trace (snd (change_setting (with_auth auth) (AStr "night_vision")
                         (ABool false) (fresh (camera unreachable))))
           = [EvTimeout ANone;
              EvGet "http://192.168.1.20:8080/settings/night_vision?set=off" auth;
              EvLog ERROR "Failed to communicate with IP Webcam: %s"]
        /\ trace (snd (change_setting (with_auth auth) (AStr "quality")
                         (AInt 80) (fresh (camera unreachable))))
           = [EvTimeout ANone;
              EvGet "http://192.168.1.20:8080/settings/quality?set=80" auth;
              EvLog ERROR "Failed to communicate with IP Webcam: %s"]
        /\ trace (snd (change_setting (with_auth auth) (AStr "orientation")
                         (AStr "portrait") (fresh (camera unreachable))))
           = [EvTimeout ANone;
              EvGet "http://192.168.1.20:8080/settings/orientation?set=portrait" auth;
              EvLog ERROR "Failed to communicate with IP Webcam: %s"]).
Proof.
  split; [reflexivity | split; [| split]].
  - change (gets (trace (emit (EvTimeout (_timeout (self h))) h))
            = gets (trace h)).
    cbn [emit trace]. rewrite gets_app. cbn. lia.
  - intros G auth Hauth.
    exact (proj2 (proj2 (proj2 (change_setting_encoding G key))) val auth h Hauth).
  - intros auth. repeat split; reflexivity.
Qed.

(** C8 (the code departs from it).  The claim: an [update] whose fetches
    fail leaves both snapshots absent, even if they were populated.  The
    code, in the module's own namespace: whatever the heap, [update] raises
    [NameError] on the unbound name [auth] in its first fetch, before either
    assignment, so both snapshots are what they were; on a camera that
    cannot be reached and whose snapshots were populated they stay
    populated.  Where [auth] is bound and every [get] raises a transport
    error, [update] does what the claim says: it returns and both snapshots
    are [None]. *)
Theorem update_failure_keeps_snapshots (h : heap) :
  update module_namespace h
  = (Raise (NameError "auth"), emit (EvTimeout (_timeout (self h))) h)
  /\ status_data (self (snd (update module_namespace h))) = status_data (self h)
  /\ sensor_data (self (snd (update module_namespace h))) = sensor_data (self h)
  /\ (fst (update module_namespace stale_heap) = Raise (NameError "auth")
      /\ status_data (self (snd (update module_namespace stale_heap)))
         = example_status
      /\ sensor_data (self (snd (update module_namespace stale_heap)))
         = example_sensors
      /\ example_status <> PNone
      /\ example_sensors <> PNone)
  /\ (forall G auth,
        g_auth G = Some auth ->
        (forall t url, exists e,
            websession (self h) t url auth = Raise e
            /\ transport_failure e = true) ->
        fst (update G h) = Ret PNone
        /\ status_data (self (snd (update G h))) = PNone
        /\ sensor_data (self (snd (update G h))) = PNone)
  /\ (forall auth,
        status_data (self (snd (update (with_auth auth) stale_heap))) = PNone
        /\ sensor_data (self (snd (update (with_auth auth) stale_heap))) = PNone).
Proof.
  split; [reflexivity | split; [reflexivity | split; [reflexivity |]]].
  split; [| split].
  - split; [reflexivity | split; [reflexivity | split; [reflexivity |]]].
    split; discriminate.
  - intros G auth Hauth Hdown. exact (update_transport_failure G auth h Hauth Hdown).
  - intros auth. split; reflexivity.
Qed.

End Properties.

(** * The model run on the small runtime *)

Section Runs.
#[local] Existing Instance small_runtime.

(** The settings view of the spec's example. *)
Lemma current_settings_coerces_witness :
  current_settings (populated unreachable example_status example_sensors)
  = Ret (PDict [("quality", PFloat 80); ("night_vision", PBool true)]).
Proof.
  refine (proj2 (current_settings_coerces
                   (populated unreachable example_status example_sensors)
                   [("curvals", PDict (string_items [("quality", "80"); ("night_vision", "on")]))]
                   [("quality", "80"); ("night_vision", "on")]
                   eq_refl eq_refl eq_refl eq_refl _)
            80 eq_refl eq_refl).
  constructor.
  - intros [H | []]. discriminate H.
  - constructor; [intros [] | constructor].
Defined.

(** An update that cannot reach the camera clears both filled snapshots. *)
Lemma update_overwrites_snapshots_witness :
  status_data (self (snd (update (with_auth PNone) stale_heap))) = PNone
  /\ sensor_data (self (snd (update (with_auth PNone) stale_heap))) = PNone.
Proof.
  eapply (update_overwrites_snapshots (with_auth PNone) stale_heap _ _ PNone PNone);
    reflexivity.
Defined.

(** In the module's own namespace the same update raises and both snapshots
    stay as they were. *)
Example update_module_namespace :
  fst (update module_namespace stale_heap) = Raise (NameError "auth")
  /\ status_data (self (snd (update module_namespace stale_heap))) = example_status
  /\ sensor_data (self (snd (update module_namespace stale_heap))) = example_sensors.
Proof.
  split; [reflexivity | split; reflexivity].
Qed.

(** A fetch of markup that is well formed returns the tree; one release. *)
Example request_markup_run :
  _request (with_auth PNone) "/enabletorch" CONTENT_XML
    (fresh (camera (always {| status := 200; text := Ret "<result/>";
                              json := Raise ValueError; release := None |})))
  = (Ret (PElement "result"),
     {| self := camera (always {| status := 200; text := Ret "<result/>";
                                  json := Raise ValueError; release := None |});
        trace := [EvTimeout ANone;
                  EvGet "http://192.168.1.20:8080/enabletorch" PNone;
                  EvText; EvRelease] |}).
Proof. reflexivity. Qed.

(** A fetch answered with a status other than 200 reads no body, releases
    once and returns no result. *)
Example request_not_found_run :
  _request (with_auth PNone) "/status.json" CONTENT_JSON
    (fresh (camera (always {| status := 404; text := Ret "";
                              json := Ret PNone; release := None |})))
  = (Ret PNone,
     {| self := camera (always {| status := 404; text := Ret "";
                                  json := Ret PNone; release := None |});
        trace := [EvTimeout ANone;
                  EvGet "http://192.168.1.20:8080/status.json" PNone;
                  EvRelease;
                  EvLog ERROR "Received invalid response: %s"] |}).
Proof. reflexivity. Qed.

(** A JSON body that is a string holding markup comes back as a tree. *)
Example request_json_string_run :
  fst (_request (with_auth PNone) "/status.json" CONTENT_JSON
         (fresh (camera (always (json_response (PStr "<a/>"))))))
  = Ret (PElement "a").
Proof. reflexivity. Qed.

(** [set_orientation] on a listed and on an unlisted value. *)
Example set_orientation_runs :
  fst (set_orientation (with_auth PNone) (AStr "portrait") stale_heap)
  = Ret (Coroutine (_request (with_auth PNone) "/settings/orientation?set=portrait"
                      CONTENT_XML))
  /\ set_orientation (with_auth PNone) (AStr "sideways") stale_heap
     = (Ret (Value (PBool false)),
        emit (EvLog DEBUG "%s is not a valid orientation") stale_heap).
Proof. split; reflexivity. Qed.

(** [set_quality(80)] and [set_night_vision(False)] on the wire. *)
Example change_setting_runs :
  trace (snd (set_quality (with_auth PNone) (AInt 80) (fresh (camera unreachable))))
  = [EvTimeout ANone;
     EvGet "http://192.168.1.20:8080/settings/quality?set=80" PNone;
     EvLog ERROR "Failed to communicate with IP Webcam: %s"]
  /\ trace (snd (set_night_vision (with_auth PNone) (ABool false)
                   (fresh (camera unreachable))))
     = [EvTimeout ANone;
        EvGet "http://192.168.1.20:8080/settings/night_vision?set=off" PNone;
        EvLog ERROR "Failed to communicate with IP Webcam: %s"].
Proof. split; reflexivity. Qed.

(** [enabled_sensors] on the spec's example and on a new camera. *)
Example enabled_sensors_runs :
  enabled_sensors (populated unreachable example_status example_sensors)
  = Ret (PList [PStr "light"; PStr "battery_temp"])
  /\ enabled_sensors (camera unreachable) = Raise AttributeError.
Proof. split; reflexivity. Qed.

(** A current value that is JSON null is no string: [float] raises
    [TypeError], which the loop does not catch. *)
Example current_settings_null_run :
  current_settings
    (populated unreachable (PDict [("curvals", PDict [("quality", PNone)])]) PNone)
  = Raise TypeError.
Proof. reflexivity. Qed.

(** [record] with a tag raises at the call in the module's own namespace. *)
Example record_tag_run :
  fst (call module_namespace (Record_ (ABool true) (AStr "clip")) stale_heap)
  = Raise (NameError "quote").
Proof. reflexivity. Qed.

End Runs.

(** * More runs on the small runtime *)

Section MoreRuns.
#[local] Existing Instance small_runtime.

(** A 404 answer: no body read, one release, no result. *)
Lemma request_body_not_read_witness :
  _request (with_auth PNone) "/status.json" CONTENT_JSON
    (fresh (camera (always not_found_response)))
  = (Ret PNone,
     {| self := camera (always not_found_response);
        trace := [EvTimeout ANone;
                  EvGet "http://192.168.1.20:8080/status.json" PNone;
                  EvRelease;
                  EvLog ERROR "Received invalid response: %s"] |}).
Proof.
  apply (request_body_not_read (with_auth PNone) PNone "/status.json"
           CONTENT_JSON (fresh (camera (always not_found_response)))
           not_found_response);
    [reflexivity | reflexivity | reflexivity | left; discriminate].
Defined.

(** A camera that cannot be reached: logged, no result, nothing released. *)
Lemma request_get_raises_witness :
  _request (with_auth PNone) "/enabletorch" CONTENT_XML (fresh (camera unreachable))
  = (Ret PNone,
     {| self := camera unreachable;
        trace := [EvTimeout ANone;
                  EvGet "http://192.168.1.20:8080/enabletorch" PNone;
                  EvLog ERROR "Failed to communicate with IP Webcam: %s"] |}).
Proof.
  apply (request_get_raises (with_auth PNone) PNone "/enabletorch" CONTENT_XML
           (fresh (camera unreachable)) ClientError);
    reflexivity.
Defined.

(** Well-formed markup comes back as its tree. *)
Lemma request_markup_result_witness :
  fst (_request (with_auth PNone) "/enabletorch" CONTENT_XML
         (fresh (camera (always markup_response))))
  = Ret (PElement "result")
  /\ trace (snd (_request (with_auth PNone) "/enabletorch" CONTENT_XML
                   (fresh (camera (always markup_response)))))
     = [EvTimeout ANone;
        EvGet "http://192.168.1.20:8080/enabletorch" PNone;
        EvText; EvRelease].
Proof.
  exact (request_markup_result (with_auth PNone) PNone "/enabletorch"
           (fresh (camera (always markup_response))) markup_response
           "<result/>" eq_refl eq_refl eq_refl eq_refl eq_refl).
Defined.

(** The value of that fetch is a tree. *)
Lemma request_result_shape_witness :
  @PElement small_runtime "result" = PNone
  \/ exists e, @PElement small_runtime "result" = PElement e.
Proof.
  apply (request_result_shape (with_auth PNone) "/enabletorch" CONTENT_XML
           (fresh (camera (always markup_response)))
           (@PElement small_runtime "result")).
  reflexivity.
Defined.

(** A release that fails with a client error is not absorbed. *)
Lemma request_release_failure_witness :
  fst (_request (with_auth PNone) "/enabletorch" CONTENT_XML
         (fresh (camera (always stuck_response))))
  = Raise ClientError.
Proof.
  apply (request_release_failure (with_auth PNone) PNone "/enabletorch"
           CONTENT_XML (fresh (camera (always stuck_response))) stuck_response
           ClientError);
    reflexivity.
Defined.

(** In the module's own namespace [update] stops at its first fetch. *)
Lemma update_first_fetch_raises_witness :
  update module_namespace stale_heap
  = (Raise (NameError "auth"), emit (EvTimeout ANone) stale_heap)
  /\ status_data (self (emit (EvTimeout ANone) stale_heap))
     = status_data (self stale_heap)
  /\ sensor_data (self (emit (EvTimeout ANone) stale_heap))
     = sensor_data (self stale_heap).
Proof.
  apply (update_first_fetch_raises module_namespace stale_heap
           (emit (EvTimeout ANone) stale_heap) (NameError "auth")).
  reflexivity.
Defined.

(** The status fetch succeeds, the sensors fetch raises: only the status
    snapshot is replaced. *)
Lemma update_second_fetch_raises_witness :
  fst (update (with_auth PNone)
         (fresh (populated status_only example_status example_sensors)))
  = Raise ValueError
  /\ status_data
       (self (snd (update (with_auth PNone)
                     (fresh (populated status_only example_status example_sensors)))))
     = PElement "status"
  /\ sensor_data
       (self (snd (update (with_auth PNone)
                     (fresh (populated status_only example_status example_sensors)))))
     = sensor_data (self (fresh (populated status_only example_status example_sensors))).
Proof.
  eapply (update_second_fetch_raises (with_auth PNone)
            (fresh (populated status_only example_status example_sensors))
            _ _ (@PElement small_runtime "status") ValueError);
    reflexivity.
Defined.

(** The two requests of an update, in order. *)
Lemma update_requests_witness :
  exists new,
    trace (snd (update (with_auth PNone) stale_heap)) = trace stale_heap ++ new
    /\ filter is_get new
       = [EvGet "http://192.168.1.20:8080/status.json" PNone;
          EvGet "http://192.168.1.20:8080/sensors.json" PNone].
Proof.
  exact (update_requests (with_auth PNone) PNone stale_heap eq_refl).
Defined.

(** After an update answered with markup inside JSON strings, the views see
    trees without attributes. *)
Lemma update_then_views_witness :
  (is_none (status_data (self (snd (update (with_auth PNone) markup_heap))))
   || is_element (status_data (self (snd (update (with_auth PNone) markup_heap))))
   = true)
  /\ (is_none (sensor_data (self (snd (update (with_auth PNone) markup_heap))))
      || is_element (sensor_data (self (snd (update (with_auth PNone) markup_heap))))
      = true)
  /\ (current_settings (self (snd (update (with_auth PNone) markup_heap)))
      = Ret PNone
      \/ current_settings (self (snd (update (with_auth PNone) markup_heap)))
         = Ret (PDict [])
      \/ current_settings (self (snd (update (with_auth PNone) markup_heap)))
         = Raise AttributeError)
  /\ (enabled_sensors (self (snd (update (with_auth PNone) markup_heap)))
      = Raise AttributeError
      \/ exists e,
          sensor_data (self (snd (update (with_auth PNone) markup_heap)))
          = PElement e
          /\ enabled_sensors (self (snd (update (with_auth PNone) markup_heap)))
             = Ret (PList (map PStr (map fst (element_attrib e))))).
Proof.
  exact (update_then_views (with_auth PNone) markup_heap PNone eq_refl).
Defined.

(** The quality of the spec's example is stored as a float. *)
Lemma current_settings_value_kinds_witness :
  is_setting_value (@PFloat small_runtime 80) = true.
Proof.
  apply (current_settings_value_kinds
           (populated unreachable example_status example_sensors)
           [("quality", @PFloat small_runtime 80); ("night_vision", PBool true)]
           eq_refl "quality" (@PFloat small_runtime 80)).
  left. reflexivity.
Defined.

(** The quality key of the spec's example is kept. *)
Lemma current_settings_keys_witness :
  In "quality" (dict_keys [("quality", @PFloat small_runtime 80); ("night_vision", PBool true)])
  <-> In "quality"
        (dict_keys (string_items [("quality", "80"); ("night_vision", "on")])).
Proof.
  exact (current_settings_keys
           (populated unreachable example_status example_sensors)
           [("curvals", PDict (string_items [("quality", "80"); ("night_vision", "on")]))]
           (string_items [("quality", "80"); ("night_vision", "on")])
           [("quality", @PFloat small_runtime 80); ("night_vision", PBool true)]
           eq_refl eq_refl eq_refl "quality").
Defined.

(** A null quality makes the settings view raise. *)
Lemma current_settings_bad_value_witness :
  current_settings (populated unreachable null_status PNone) = Raise TypeError
  \/ current_settings (populated unreachable null_status PNone) = Raise OverflowError.
Proof.
  apply (current_settings_bad_value (populated unreachable null_status PNone)
           [("curvals", PDict [("quality", PNone)])] [("quality", PNone)]
           "quality" PNone TypeError);
    [reflexivity | reflexivity | left; reflexivity | reflexivity | discriminate].
Defined.

(** [set_quality(80)] driven on a camera that cannot be reached: one
    request. *)
Lemma operation_makes_one_request_witness :
  exists path new,
    trace (snd (set_quality (with_auth PNone) (AInt 80) (fresh (camera unreachable))))
    = trace (fresh (camera unreachable)) ++ new
    /\ filter is_get new
       = [EvGet (base_url (self (fresh (camera unreachable))) ++ path)%string PNone].
Proof.
  exact (operation_makes_one_request (with_auth PNone) PNone
           (Set_quality (AInt 80)) stale_heap (fresh (camera unreachable))
           (set_quality (with_auth PNone) (AInt 80)) eq_refl eq_refl).
Defined.

End MoreRuns.
